(** * RTMPy: RPC call correlation, decoder clock and handshake tokens

    A shallow embedding of [rtmpy/rpc.py] (the call registry and the call
    initiator built on it), together with the parts of the decoder and of
    the handshake tokens that the unit tests of the repository exercise.

    Python integers are unbounded, so call ids and timestamps are [Z].
    The [dict] of active calls is a [gmap Z _]. *)

From Stdlib Require Import ZArith Lia Sorted.
From stdpp Require Import base option list gmap strings.

Local Open Scope Z_scope.

(** ** Methods as programs

    A method runs on the mutable state [S] of its object and either
    returns a value or raises an exception of type [E]; the state reached
    when the exception is raised is kept, as in Python. *)

Module Eff.

Inductive outcome (E R : Type) :=
| Return (r : R)
| Raise (e : E).
Global Arguments Return {E R} _.
Global Arguments Raise {E R} _.

Definition M (S E R : Type) : Type := S → outcome E R * S.

Section Programs.
Context {S E : Type}.

Definition ret {R} (r : R) : M S E R := λ s, (Return r, s).

Definition bind {R R'} (m : M S E R) (k : R → M S E R') : M S E R' := λ s,
  match m s with
  | (Return r, s') => k r s'
  | (Raise e, s') => (Raise e, s')
  end.

Definition raise {R} (e : E) : M S E R := λ s, (Raise e, s).

(** [try: body  except: handler] with a bare [except]. *)
Definition try_except {R} (body : M S E R) (handler : E → M S E R)
  : M S E R := λ s,
  match body s with
  | (Return r, s') => (Return r, s')
  | (Raise e, s') => handler e s'
  end.

Definition get : M S E S := λ s, (Return s, s).
Definition put (s : S) : M S E unit := λ _, (Return (), s).
Definition modify (f : S → S) : M S E unit := λ s, (Return (), f s).

End Programs.

Module Notations.
Notation "x <- m ;; k" := (bind m (λ x, k))
  (at level 100, m at next level, right associativity).
Notation "m ;;; k" := (bind m (λ _, k))
  (at level 100, right associativity).
End Notations.

End Eff.

(** ** rtmpy/rpc.py *)

Module Rpc.
Import Eff Eff.Notations.

(** The id for an RPC call that does not require or expect a response. *)
Definition NO_RESULT : Z := 0.

(** The names of the responses for a successful and for a failed RPC call. *)
Definition RESPONSE_RESULT : string := "_result".
Definition RESPONSE_ERROR : string := "_error".

(** *** class BaseCallHandler

    [A] is the type of the context tuple handed to [initiateCall]. *)

Section BaseCallHandler.
Context {A : Type}.

Record BaseCallHandler := mkHandler {
  _lastCallId : Z;
  _activeCalls : gmap Z A
}.

(** [__init__] *)
Definition __init__ : BaseCallHandler :=
  {| _lastCallId := 0; _activeCalls := ∅ |}.

(** [callId in self._activeCalls] *)
Definition isCallActive (callId : Z) (self : BaseCallHandler) : bool :=
  bool_decide (is_Some (_activeCalls self !! callId)).

Definition getNextCallId (self : BaseCallHandler) : Z :=
  _lastCallId self + 1.

(** [self._activeCalls.get(callId, None)] *)
Definition getCallContext (callId : Z) (self : BaseCallHandler) : option A :=
  _activeCalls self !! callId.

(** [dict.pop(key, None)]: the value stored under [key] is removed and
    returned; a missing key yields [None] and the dict is left alone. *)
Definition dict_pop (key : Z) (d : gmap Z A) : option A * gmap Z A :=
  match d !! key with
  | Some v => (Some v, delete key d)
  | None => (None, d)
  end.

(** [callId = self._lastCallId = self.getNextCallId();
     self._activeCalls[callId] = args; return callId] *)
Definition initiateCall (args : A) (self : BaseCallHandler)
  : Z * BaseCallHandler :=
  let callId := getNextCallId self in
  (callId,
   {| _lastCallId := callId;
      _activeCalls := <[callId := args]> (_activeCalls self) |}).

(** [return self._activeCalls.pop(callId, None)] *)
Definition finishCall (callId : Z) (self : BaseCallHandler)
  : option A * BaseCallHandler :=
  let '(ctx, calls) := dict_pop callId (_activeCalls self) in
  (ctx, {| _lastCallId := _lastCallId self; _activeCalls := calls |}).

(** [return self._activeCalls.pop(callId, None)] *)
Definition discardCall (callId : Z) (self : BaseCallHandler)
  : option A * BaseCallHandler :=
  let '(ctx, calls) := dict_pop callId (_activeCalls self) in
  (ctx, {| _lastCallId := _lastCallId self; _activeCalls := calls |}).

(** A client of the handler: the methods it may call, in any order. *)
Inductive op :=
| InitiateCall (args : A)
| FinishCall (callId : Z)
| DiscardCall (callId : Z)
| IsCallActive (callId : Z)
| GetNextCallId
| GetCallContext (callId : Z).

(** One method call: the id it hands out (for [initiateCall] only) and
    the handler afterwards. *)
Definition apply_op (o : op) (self : BaseCallHandler)
  : option Z * BaseCallHandler :=
  match o with
  | InitiateCall args =>
      let '(callId, self') := initiateCall args self in (Some callId, self')
  | FinishCall callId => (None, (finishCall callId self).2)
  | DiscardCall callId => (None, (discardCall callId self).2)
  | IsCallActive _ | GetNextCallId | GetCallContext _ => (None, self)
  end.

(** A whole session: the ids returned by [initiateCall], in call order,
    and the final handler. *)
Fixpoint run (ops : list op) (self : BaseCallHandler)
  : list Z * BaseCallHandler :=
  match ops with
  | [] => ([], self)
  | o :: ops' =>
      let '(r, self') := apply_op o self in
      let '(ids, self'') := run ops' self' in
      (from_option (λ i, [i]) [] r ++ ids, self'')
  end.

(** Every active id was handed out by [initiateCall] and lies in
    [1 .. _lastCallId]. *)
Definition ids_in_range (self : BaseCallHandler) : Prop :=
  0 ≤ _lastCallId self ∧
  ∀ k, is_Some (_activeCalls self !! k) → 1 ≤ k ≤ _lastCallId self.

(** How many of the [finishCall] and [discardCall] calls of a session
    returned a context, that is, removed an active call. *)
Fixpoint removed (ops : list op) (self : BaseCallHandler) : nat :=
  match ops with
  | [] => 0%nat
  | o :: ops' =>
      (match o with
       | FinishCall callId =>
           from_option (λ _, 1%nat) 0%nat (finishCall callId self).1
       | DiscardCall callId =>
           from_option (λ _, 1%nat) 0%nat (discardCall callId self).1
       | _ => 0%nat
       end + removed ops' (apply_op o self).2)%nat
  end.

End BaseCallHandler.

Global Arguments BaseCallHandler : clear implicits.
Global Arguments op : clear implicits.

(** *** class AbstractCallInitiator(BaseCallHandler) *)

(** Modelled from the spec: [message.Invoke] (rtmpy/message.py is absent
    from the source tree).  The RPC wire fields are the call name, the
    call id ([0] = no response), the optional command value and the
    positional argument sequence. *)
Record Invoke {value : Type} := mkInvoke {
  invoke_name : string;
  invoke_id : Z;
  invoke_command : option value;
  invoke_argv : list value
}.
Global Arguments Invoke : clear implicits.
Global Arguments mkInvoke {value} _ _ _ _.

(** [message.IMessageSender]: the one capability a call initiator needs.
    Sending acts on the transport of the implementing class and either
    returns or raises. *)
Class IMessageSender (value exn transport : Type) :=
  sendMessage : Invoke value → transport → transport * option exn.

(** Python's [None] among the objects that arrive as the result of a
    response. *)
Class PyNone (value : Type) := is_None : value → bool.

(** The two exceptions of twisted that can leave [handleRemoteResponse]:
    [failure.NoCurrentExceptionError], raised by the constructor of a
    [Failure] that is given [None] while no exception is being handled,
    and [defer.AlreadyCalledError], raised by [callback] and [errback] on
    a Deferred that was fired before. *)
Class TwistedErrors (exn : Type) := {
  NoCurrentExceptionError : exn;
  AlreadyCalledError : exn
}.

(** The exceptions met in the sessions below: [NotImplementedError] of
    the abstract [sendMessage] and the two of twisted. *)
Inductive PyException :=
| NotImplementedError
| noCurrentExceptionError
| alreadyCalledError.

#[global] Instance PyException_twisted : TwistedErrors PyException :=
  {| NoCurrentExceptionError := noCurrentExceptionError;
     AlreadyCalledError := alreadyCalledError |}.

(** An integer is never [None]; an optional integer is [None] when it is
    absent. *)
#[global] Instance Z_PyNone : PyNone Z := λ _, false.

#[global] Instance option_PyNone {A : Type} : PyNone (option A) := λ o,
  match o with
  | None => true
  | Some _ => false
  end.

(** [AbstractCallInitiator.sendMessage] itself: [raise NotImplementedError]. *)
Definition AbstractSender {value : Type}
  : IMessageSender value PyException unit :=
  λ _ t, (t, Some NotImplementedError).

(** A sender that writes every message to a list and never raises. *)
Definition RecordingSender {value exn : Type}
  : IMessageSender value exn (list (Invoke value)) :=
  λ m t, (t ++ [m], None).

Section AbstractCallInitiator.
Context {value exn transport : Type}.
Context {sender : IMessageSender value exn transport}.
Context {none : PyNone value} {twisted : TwistedErrors exn}.

(** A [defer.Deferred] is known by its identity. *)
Definition Deferred := nat.

(** The context stored by [callRemoteWithResult]:
    [(d, name, args, command)]. *)
Definition CallContext : Type :=
  Deferred * string * list value * option value.

(** [class RemoteCallFailed(failure.Failure)] *)
Inductive Failure := RemoteCallFailed (result : value).

(** The objects interpolated with [%r] into a log line. *)
Inductive logged :=
| LStr (s : string)
| LInt (n : Z)
| LObj (v : value)
| LTuple (vs : list value)
| LOpt (c : option value).

(** What the initiator does to its collaborators (twisted's log and
    Deferreds, the message sender), in program order.  A [callback] or
    [errback] event is a call that fired the Deferred. *)
Inductive event :=
| log_msg (format : string) (args : list logged)
| sent (m : Invoke value)
| callback (d : Deferred) (result : value)
| errback (d : Deferred) (fail : Failure).

Record Initiator := mkInitiator {
  handler : BaseCallHandler CallContext;
  wire : transport;
  deferreds : nat;
  events : list event
}.

(** A freshly constructed initiator on a given transport. *)
Definition new_initiator (t : transport) : Initiator :=
  {| handler := __init__; wire := t; deferreds := 0; events := [] |}.

(** The methods of an initiator: programs over [Initiator] raising [exn]. *)
Definition M (R : Type) : Type := Eff.M Initiator exn R.

(** A method of [BaseCallHandler] run on the initiator. *)
Definition inherited {R}
    (f : BaseCallHandler CallContext → R * BaseCallHandler CallContext)
  : M R := λ self,
  let '(r, h) := f (handler self) in
  (Return r,
   {| handler := h; wire := wire self;
      deferreds := deferreds self; events := events self |}).

Definition emit (e : event) : M unit := λ self,
  (Return (),
   {| handler := handler self; wire := wire self;
      deferreds := deferreds self; events := events self ++ [e] |}).

(** [defer.Deferred()] *)
Definition new_Deferred : M Deferred := λ self,
  (Return (deferreds self),
   {| handler := handler self; wire := wire self;
      deferreds := S (deferreds self); events := events self |}).

(** [self.sendMessage(msg)] *)
Definition self_sendMessage (msg : Invoke value) : M unit := λ self,
  let '(t, r) := sendMessage msg (wire self) in
  let self' :=
    {| handler := handler self; wire := t;
       deferreds := deferreds self; events := events self ++ [sent msg] |} in
  match r with
  | None => (Return (), self')
  | Some e => (Raise e, self')
  end.

(** [callRemote(self, name, *args, **kwargs)]; [command] is
    [kwargs.get('command', None)]. *)
Definition callRemote (name : string) (args : list value)
    (command : option value) : M unit :=
  let msg := mkInvoke name NO_RESULT command args in
  self_sendMessage msg.

(** [callRemoteWithResult(self, name, *args, **kwargs)] *)
Definition callRemoteWithResult (name : string) (args : list value)
    (command : option value) : M Deferred :=
  d <- new_Deferred ;;
  callId <- inherited (initiateCall (d, name, args, command)) ;;
  let m := mkInvoke name callId command args in
  try_except (self_sendMessage m)
    (λ e, inherited (discardCall callId) ;;; raise e) ;;;
  ret d.

(** The Deferred an event fires, and the Deferreds fired by a trace, in
    order. *)
Definition fired_by (e : event) : option Deferred :=
  match e with
  | callback d _ | errback d _ => Some d
  | log_msg _ _ | sent _ => None
  end.

Definition fired (evs : list event) : list Deferred := omap fired_by evs.

(** [d.called]: whether the Deferred was fired before. *)
Definition called (d : Deferred) (self : Initiator) : bool :=
  bool_decide (d ∈ fired (events self)).

(** [d.callback(result)] and [d.errback(fail)]: a Deferred that was fired
    before raises [AlreadyCalledError]; otherwise it is fired. *)
Definition Deferred_callback (d : Deferred) (result : value) : M unit :=
  λ self,
  if called d self then (Raise AlreadyCalledError, self)
  else emit (callback d result) self.

Definition Deferred_errback (d : Deferred) (fail : Failure) : M unit :=
  λ self,
  if called d self then (Raise AlreadyCalledError, self)
  else emit (errback d fail) self.

(** [RemoteCallFailed(result)]: the constructor inherited from
    [failure.Failure].  Given [None] it looks for the exception being
    handled, and [handleRemoteResponse] is not called from an exception
    handler: it raises [NoCurrentExceptionError]. *)
Definition new_RemoteCallFailed (result : value) : M Failure :=
  if is_None result then raise NoCurrentExceptionError
  else ret (RemoteCallFailed result).

(** [handleRemoteResponse(self, name, callId, result, **kwargs)] *)
Definition handleRemoteResponse (name : string) (callId : Z)
    (result : value) (command : option value) : M unit :=
  callContext <- inherited (finishCall callId) ;;
  match callContext with
  | None =>
      (if decide (callId = NO_RESULT) then
         emit (log_msg
           "Attempted to handle an RPC response when one was not expected."
           []) ;;;
         emit (log_msg "Response context was %r%r" [LStr name; LObj result])
       else
         emit (log_msg "Unknown RPC callId %r for %r with result %r"
           [LInt callId; LStr name; LObj result])) ;;;
      ret ()
  | Some (d, originalName, originalArgs, originalCommand) =>
      match command with
      | Some c =>
          emit (log_msg "Received command of %r with result %r"
            [LObj c; LObj result]) ;;;
          emit (log_msg "In response to %r%r"
            [LStr originalName; LTuple originalArgs])
      | None => ret ()
      end ;;;
      if decide (name = RESPONSE_RESULT) then
        Deferred_callback d result
      else if decide (name = RESPONSE_ERROR) then
        fail <- new_RemoteCallFailed result ;;
        Deferred_errback d fail
      else
        emit (log_msg "Unknown response type %r" [LStr name]) ;;;
        emit (log_msg "Result = %r" [LObj result]) ;;;
        emit (log_msg "Original call was %r%r with command %r"
          [LStr originalName; LTuple originalArgs; LOpt originalCommand])
  end.

(** The log lines of the branch without an active call. *)
Definition unmatched_log (name : string) (callId : Z) (result : value)
  : list event :=
  if decide (callId = NO_RESULT) then
    [log_msg "Attempted to handle an RPC response when one was not expected."
       [];
     log_msg "Response context was %r%r" [LStr name; LObj result]]
  else
    [log_msg "Unknown RPC callId %r for %r with result %r"
       [LInt callId; LStr name; LObj result]].

(** The log lines written when a response carries a command. *)
Definition command_log (command : option value) (result : value)
    (originalName : string)
    (originalArgs : list value) : list event :=
  match command with
  | Some c =>
      [log_msg "Received command of %r with result %r" [LObj c; LObj result];
       log_msg "In response to %r%r" [LStr originalName; LTuple originalArgs]]
  | None => []
  end.

(** The Deferred of a stored context. *)
Definition context_deferred (ctx : CallContext) : Deferred := ctx.1.1.1.

(** What happens to the continuation of a matched call: the events, and
    the exception the response ends in, if any. *)
Definition dispatch (name : string) (result : value) (ctx : CallContext)
    (self : Initiator) : list event :=
  let '(d, originalName, originalArgs, originalCommand) := ctx in
  if decide (name = RESPONSE_RESULT) then
    if called d self then [] else [callback d result]
  else if decide (name = RESPONSE_ERROR) then
    if is_None result then []
    else if called d self then []
    else [errback d (RemoteCallFailed result)]
  else
    [log_msg "Unknown response type %r" [LStr name];
     log_msg "Result = %r" [LObj result];
     log_msg "Original call was %r%r with command %r"
       [LStr originalName; LTuple originalArgs; LOpt originalCommand]].

Definition dispatch_outcome (name : string) (result : value)
    (ctx : CallContext) (self : Initiator) : outcome exn unit :=
  if decide (name = RESPONSE_RESULT) then
    if called (context_deferred ctx) self then Raise AlreadyCalledError
    else Return ()
  else if decide (name = RESPONSE_ERROR) then
    if is_None result then Raise NoCurrentExceptionError
    else if called (context_deferred ctx) self then Raise AlreadyCalledError
    else Return ()
  else Return ().

(** A client of the initiator: every public method, the inherited ones
    included, in any order.  An exception raised by a method is seen by
    the client, which carries on with the same object. *)
Inductive request :=
| Inherited (o : op CallContext)
| CallRemote (name : string) (args : list value) (command : option value)
| CallRemoteWithResult (name : string) (args : list value)
    (command : option value)
| HandleRemoteResponse (name : string) (callId : Z) (result : value)
    (command : option value).

Definition serve (r : request) (self : Initiator) : Initiator :=
  match r with
  | Inherited o => (inherited (apply_op o) self).2
  | CallRemote name args command => (callRemote name args command self).2
  | CallRemoteWithResult name args command =>
      (callRemoteWithResult name args command self).2
  | HandleRemoteResponse name callId result command =>
      (handleRemoteResponse name callId result command self).2
  end.

Definition serve_all (rs : list request) (self : Initiator) : Initiator :=
  foldl (λ s r, serve r s) self rs.

(** The call id of a message handed to [sendMessage], and the ids on the
    wire over a trace, in order. *)
Definition sent_id (e : event) : option Z :=
  match e with
  | sent m => Some (invoke_id m)
  | _ => None
  end.

Definition wire_ids (evs : list event) : list Z := omap sent_id evs.

(** A client that leaves the registration of calls to
    [callRemoteWithResult]: it does not call the inherited [initiateCall]
    itself. *)
Definition by_protocol (r : request) : bool :=
  match r with
  | Inherited (InitiateCall _) => false
  | _ => true
  end.

(** What a response adds to the trace. *)
Definition response_events (name : string) (callId : Z) (result : value)
    (command : option value) (self : Initiator) : list event :=
  match getCallContext callId (handler self) with
  | None => unmatched_log name callId result
  | Some ctx =>
      command_log command result ctx.1.1.2 ctx.1.2
      ++ dispatch name result ctx self
  end.

(** Whether a request is aimed at the call [c]: a response, a
    [finishCall] or a [discardCall] that carries its id. *)
Definition targets (c : Z) (r : request) : bool :=
  match r with
  | Inherited (FinishCall k) | Inherited (DiscardCall k)
  | HandleRemoteResponse _ k _ _ => bool_decide (k = c)
  | _ => false
  end.


End AbstractCallInitiator.

Global Arguments Failure : clear implicits.
Global Arguments logged : clear implicits.
Global Arguments event : clear implicits.
Global Arguments CallContext : clear implicits.
Global Arguments Initiator : clear implicits.
Global Arguments M : clear implicits.
Global Arguments request : clear implicits.

(** Two initiators to run the methods on: one that inherits the abstract
    [sendMessage], one whose [sendMessage] records the messages. *)
Definition abstract_initiator : Initiator Z unit := new_initiator ().

Definition recording_initiator : Initiator Z (list (Invoke Z)) :=
  new_initiator [].

(** An initiator whose results may be [None], after one
    [callRemoteWithResult]. *)
Definition waiting_initiator
  : Initiator (option Z) (list (Invoke (option Z))) :=
  (callRemoteWithResult (sender := RecordingSender (exn := PyException))
     "connect" [Some 7] None (new_initiator [])).2.

(** A handler in mid-session: two calls initiated, the first finished. *)
Definition busy_handler : BaseCallHandler string :=
  (run [InitiateCall "a"; InitiateCall "b"; FinishCall 1] __init__).2.

End Rpc.

(** ** The decoder, as driven by rtmpy/tests/rtmp/test_decoder.py

    [codec.Decoder] is exercised by [DecoderTestCase] against mock
    collaborators; the mocks are embedded as the test file has them. *)

Module Codec.
Import Eff Eff.Notations.

(** The exceptions the harness can raise. *)
Inductive exn :=
| IndexError        (* [list.pop(0)] on an empty list *)
| AssertionError.   (* [assertEqual] in [getStream], [failOnDispatch] *)

Section Decoder.
Context {bytes datatype : Type}.

(** [class ChannelMeta]: the header fields that travel with a message. *)
Record ChannelMeta := mkMeta {
  meta_datatype : option datatype;
  meta_channelId : option Z;
  meta_timestamp : Z;
  meta_streamId : Z
}.

(** What the demuxer hands over: [(None, None)] or [(data, meta)]. *)
Inductive demuxed :=
| Tick
| Message (data : bytes) (meta : ChannelMeta).

(** [class MockStream]: [timestamp = 0]. *)
Record MockStream := mkStream { stream_timestamp : Z }.

Definition MockStream_new : MockStream := {| stream_timestamp := 0 |}.

(** A stream object is known by the key under which the test case keeps
    it in [self.streams]. *)
Definition stream_ref := Z.

(** The arguments of one [dispatchMessage] call:
    [(stream, datatype, timestamp, data)]. *)
Definition dispatched : Type :=
  stream_ref * option datatype * Z * bytes.

(** [DecoderTestCase] with its decoder, dispatcher and stream factory. *)
Record Harness := mkHarness {
  events : list demuxed;                (* [decoder.events] *)
  streams : gmap Z MockStream;          (* [self.streams] *)
  expected_streams : option (list Z);   (* [self.expected_streams] *)
  failOnDispatch : bool;                (* [self.failOnDispatch] *)
  messages : list dispatched            (* [dispatcher.messages] *)
}.

(** [setUp], after which [add_events] queued [evs]. *)
Definition setUp (evs : list demuxed) : Harness :=
  {| events := evs; streams := ∅; expected_streams := None;
     failOnDispatch := false; messages := [] |}.

Definition set_events (evs : list demuxed) (t : Harness) : Harness :=
  {| events := evs; streams := streams t;
     expected_streams := expected_streams t;
     failOnDispatch := failOnDispatch t; messages := messages t |}.

Definition set_streams (ss : gmap Z MockStream) (t : Harness) : Harness :=
  {| events := events t; streams := ss;
     expected_streams := expected_streams t;
     failOnDispatch := failOnDispatch t; messages := messages t |}.

Definition set_expected_streams (es : option (list Z)) (t : Harness)
  : Harness :=
  {| events := events t; streams := streams t; expected_streams := es;
     failOnDispatch := failOnDispatch t; messages := messages t |}.

Definition set_messages (ms : list dispatched) (t : Harness) : Harness :=
  {| events := events t; streams := streams t;
     expected_streams := expected_streams t;
     failOnDispatch := failOnDispatch t; messages := ms |}.

(** [MockFrameReader.next]: [return self.events.pop(0)] *)
Definition MockChannelDemuxer_next : M Harness exn demuxed := λ t,
  match events t with
  | [] => (Raise IndexError, t)
  | e :: rest => (Return e, set_events rest t)
  end.

(** [DecoderTestCase.getStream], reached through
    [MockStreamFactory.getStream]. *)
Definition getStream (streamId : Z) : M Harness exn stream_ref :=
  (t <- get ;;
   match expected_streams t with
   | Some (expected :: rest) =>
       put (set_expected_streams (Some rest) t) ;;;
       if decide (expected = streamId) then ret () else raise AssertionError
   | _ => ret ()
   end) ;;;
  t <- get ;;
  match streams t !! streamId with
  | Some _ => ret streamId
  | None =>
      put (set_streams (<[streamId := MockStream_new]> (streams t)) t) ;;;
      ret streamId
  end.

(** [DispatchTester.dispatchMessage] *)
Definition dispatchMessage (args : dispatched) : M Harness exn unit :=
  t <- get ;;
  if failOnDispatch t then raise AssertionError
  else put (set_messages (messages t ++ [args]) t).

(** Reading and updating the [timestamp] attribute of a stream object. *)
Definition timestamp_of (s : stream_ref) (t : Harness) : Z :=
  from_option stream_timestamp 0 (streams t !! s).

Definition add_timestamp (s : stream_ref) (delta : Z) : M Harness exn unit :=
  modify (λ t,
    set_streams
      (<[s := {| stream_timestamp := timestamp_of s t + delta |}]> (streams t))
      t).

(** Modelled from the spec: [codec.Decoder.next] (rtmpy/protocol/rtmp/codec.py
    is absent from the source tree).  It pulls one demux result; on
    [(None, None)] it returns without dispatching; otherwise it resolves
    the stream through the stream factory, adds the message's timestamp
    (a delta) to the stream's running clock, then calls the dispatcher
    with [(stream, meta.datatype, stream.timestamp, data)]. *)
Definition Decoder_next : M Harness exn unit :=
  r <- MockChannelDemuxer_next ;;
  match r with
  | Tick => ret ()
  | Message data meta =>
      stream <- getStream (meta_streamId meta) ;;
      add_timestamp stream (meta_timestamp meta) ;;;
      t <- get ;;
      dispatchMessage
        (stream, meta_datatype meta, timestamp_of stream t, data)
  end.

(** [n] calls of [decoder.next()], stopping at the first exception. *)
Fixpoint Decoder_next_n (n : nat) : M Harness exn unit :=
  match n with
  | O => ret ()
  | S n' => Decoder_next ;;; Decoder_next_n n'
  end.

(** A test that sets no [expected_streams] and does not fail on dispatch. *)
Definition plain (t : Harness) : Prop :=
  expected_streams t = None ∧ failOnDispatch t = false.

(** The sum of the deltas carried by the messages of [evs] for stream [s]. *)
Fixpoint deltas_for (s : Z) (evs : list demuxed) : Z :=
  match evs with
  | [] => 0
  | Tick :: evs' => deltas_for s evs'
  | Message _ meta :: evs' =>
      (if decide (meta_streamId meta = s) then meta_timestamp meta else 0)
      + deltas_for s evs'
  end.

End Decoder.

(** [test_incrementing_timestamp]: two messages for stream 2, carrying
    the timestamps 2 and 3. *)
Definition test_incrementing_timestamp : @Harness string string :=
  setUp [Message "foo" (mkMeta None None 2 2);
         Message "foo" (mkMeta None None 3 2)].

Global Arguments ChannelMeta : clear implicits.
Global Arguments demuxed : clear implicits.
Global Arguments Harness : clear implicits.
Global Arguments dispatched : clear implicits.

End Codec.

(** ** Handshake tokens, as pinned by rtmpy/tests/rtmp/test_handshake.py

    [rtmpy/rtmp/handshake.py] is absent from the source tree; its
    tokens are modelled from the specification, and every behaviour its
    unit tests pin is taken from the tests. *)

Module Handshake.
Import Eff.

Definition bytes := list Byte.byte.

(** [handshake.HandshakeError], with its message. *)
Inductive exn := HandshakeError (msg : string).

(** Modelled from the spec: the keyed digest primitive, the source of
    pseudo-random bytes and the constants of [handshake] and [versions]
    that the tokens use. *)
Class Primitives := {
  _digest : bytes → bytes → bytes;     (* [_digest(key, payload)] *)
  generateBytes : nat → bytes;         (* [generateBytes(length)] *)
  SERVER_KEY : bytes;
  DIGEST_WINDOW : Z;
  H264_MIN_FLASH : Z;
  H264_MIN_FMS : Z
}.

(** The length of a token block and of a digest. *)
Definition HANDSHAKE_LENGTH : nat := 1536.
Definition DIGEST_LENGTH : nat := 32.

Definition byte_of_Z (z : Z) : Byte.byte :=
  default Byte.x00 (Byte.of_N (Z.to_N (z mod 256))).

Definition Z_of_byte (b : Byte.byte) : Z := Z.of_N (Byte.to_N b).

(** [write_ulong]: four bytes, big-endian. *)
Definition write_ulong (n : Z) : bytes :=
  [byte_of_Z (Z.shiftr n 24); byte_of_Z (Z.shiftr n 16);
   byte_of_Z (Z.shiftr n 8); byte_of_Z n].

Definition sum_bytes (l : bytes) : Z :=
  foldr (λ b acc, Z_of_byte b + acc) 0 l.

Module ClientToken.

Record t := mk {
  uptime : Z;
  version : Z;
  payload : option bytes;
  _digest : option bytes        (* the attribute [_digest], once set *)
}.

(** [ClientToken(uptime=0, version=0, payload=None)] *)
Definition new (uptime version : Z) (payload : option bytes) : t :=
  {| uptime := uptime; version := version; payload := payload;
     _digest := None |}.

Definition set_payload (p : option bytes) (self : t) : t :=
  {| uptime := uptime self; version := version self; payload := p;
     _digest := _digest self |}.

Definition set_digest (d : option bytes) (self : t) : t :=
  {| uptime := uptime self; version := version self;
     payload := payload self; _digest := d |}.

(** Where the digest sits in a payload: the sum of the four bytes at
    8..11, modulo the window, past the first twelve bytes. *)
Definition digest_offset `{Primitives} (p : bytes) : nat :=
  Z.to_nat (sum_bytes (take 4 (drop 8 p)) `mod` DIGEST_WINDOW + 12).

(** Modelled from the spec: [ClientToken.getDigest].  It fails with
    [HandshakeError] if the payload is absent, returns [None] if the
    version is below the minimum that supports digest validation, and
    otherwise returns the 32 bytes embedded at the computed offset,
    kept in [_digest] from then on. *)
Definition getDigest `{Primitives} : M t exn (option bytes) := λ self,
  match payload self with
  | None =>
      (Raise (HandshakeError "No digest available for an empty handshake"),
       self)
  | Some p =>
      if version self <? H264_MIN_FLASH then (Return None, self)
      else
        match _digest self with
        | Some d => (Return (Some d), self)
        | None =>
            let d := take DIGEST_LENGTH (drop (digest_offset p) p) in
            (Return (Some d), set_digest (Some d) self)
        end
  end.

(** Modelled from the spec: [ClientToken.generatePayload].  It is
    idempotent and fills 1536 bytes: the uptime, the version, then
    pseudo-random bytes. *)
Definition generatePayload `{Primitives} : M t exn unit := λ self,
  match payload self with
  | Some _ => (Return (), self)
  | None =>
      (Return (),
       set_payload
         (Some (write_ulong (uptime self) ++ write_ulong (version self)
                ++ generateBytes (HANDSHAKE_LENGTH - 8)))
         self)
  end.

End ClientToken.

Module ServerToken.

(** The client token is held by reference in Python; here the token
    carries the client's current value, and a change made to the client
    object from outside is [set_client]. *)
Record t := mk {
  client : option ClientToken.t;
  uptime : Z;
  version : Z;
  payload : option bytes;
  _digest : option bytes        (* the attribute [_digest], once set *)
}.

(** [ServerToken(client, uptime=0, version=0, payload=None)] *)
Definition new (client : option ClientToken.t) (uptime version : Z)
    (payload : option bytes) : t :=
  {| client := client; uptime := uptime; version := version;
     payload := payload; _digest := None |}.

Definition set_client (c : option ClientToken.t) (self : t) : t :=
  {| client := c; uptime := uptime self; version := version self;
     payload := payload self; _digest := _digest self |}.

Definition set_payload (p : option bytes) (self : t) : t :=
  {| client := client self; uptime := uptime self; version := version self;
     payload := p; _digest := _digest self |}.


Definition set_digest (d : option bytes) (self : t) : t :=
  {| client := client self; uptime := uptime self; version := version self;
     payload := payload self; _digest := d |}.

(** Modelled from the spec: [ServerToken.getDigest].  It returns [None]
    if the associated client is absent or not digest-capable; otherwise
    it computes the digest on first access and caches it in [_digest],
    from where every later call takes it. *)
Definition getDigest `{Primitives} : M t exn (option bytes) := λ self,
  match _digest self with
  | Some d => (Return (Some d), self)
  | None =>
      match client self with
      | None => (Return None, self)
      | Some c =>
          match ClientToken.getDigest c with
          | (Raise e, c') => (Raise e, set_client (Some c') self)
          | (Return None, c') => (Return None, set_client (Some c') self)
          | (Return (Some cd), c') =>
              let d := Handshake._digest SERVER_KEY cd in
              (Return (Some d), set_digest (Some d) (set_client (Some c') self))
          end
      end
  end.

(** Modelled from the spec: [ServerToken.generatePayload].  It is
    idempotent and requires a client token; the payload is the token's
    own 1536-byte block followed by a copy of the client's payload, with
    a digest block in the last 32 bytes of the own block when the client
    is digest-capable.  With a client whose payload is [None] the error
    is the one [ServerTokenClassTestCase.test_generate_payload] observes:
    that of the client's [getDigest]. *)
Definition generatePayload `{Primitives} : M t exn unit := λ self,
  match payload self with
  | Some _ => (Return (), self)
  | None =>
      match client self with
      | None =>
          (Raise (HandshakeError
             "client token is required before generating server token"),
           self)
      | Some c =>
          match ClientToken.getDigest c with
          | (Raise e, c') => (Raise e, set_client (Some c') self)
          | (Return capable, c') =>
              let theirs := default [] (ClientToken.payload c') in
              let own :=
                write_ulong (uptime self) ++ write_ulong (version self)
                ++ generateBytes (HANDSHAKE_LENGTH - 8) in
              let block :=
                match capable with
                | None => own
                | Some _ =>
                    let signed :=
                      take (HANDSHAKE_LENGTH - DIGEST_LENGTH) own in
                    signed ++ Handshake._digest SERVER_KEY (signed ++ theirs)
                end in
              (Return (),
               set_payload (Some (block ++ theirs))
                 (set_client (Some c') self))
          end
      end
  end.




End ServerToken.

Module ServerNegotiator.

Record t := mk {
  started : bool;
  client : option ClientToken.t;
  server : option ServerToken.t;
  uptime : option Z;
  version : option Z;
  buffer : bytes
}.

(** [ServerNegotiator(observer)] *)
Definition new : t :=
  {| started := false; client := None; server := None;
     uptime := None; version := None; buffer := [] |}.

(** The negotiator after [start(uptime, version)], as [test_start_args]
    observes it. *)
Definition start (uptime version : option Z) (self : t) : t :=
  {| started := true; client := None; server := None;
     uptime := uptime; version := version; buffer := [] |}.

Definition set_client (c : option ClientToken.t) (self : t) : t :=
  {| started := started self; client := c; server := server self;
     uptime := uptime self; version := version self; buffer := buffer self |}.

Definition set_server (s : option ServerToken.t) (self : t) : t :=
  {| started := started self; client := client self; server := s;
     uptime := uptime self; version := version self; buffer := buffer self |}.

(** Modelled from the spec: [ServerNegotiator.generateToken], with the
    error messages and the tokens [ServerNegotiatorTestCase.test_generateToken]
    observes. *)
Definition generateToken `{Primitives} : M t exn unit := λ self,
  if negb (started self) then
    (Raise (HandshakeError
       "`start` must be called before generating server token"), self)
  else
    match client self with
    | None =>
        (Raise (HandshakeError
           "client token is required before generating server token"), self)
    | Some c =>
        let v :=
          match version self with
          | None => H264_MIN_FMS
          | Some v => if v <? H264_MIN_FMS then 0 else v
          end in
        (Return (),
         set_server
           (Some (ServerToken.new (Some c) (default 0 (uptime self)) v None))
           self)
    end.

End ServerNegotiator.

(** Primitives to run the tokens on: a digest that keeps the first 32
    bytes of key and payload, zero-padded, and version thresholds in the
    four-byte form the tests use. *)
Definition sample_primitives : Primitives :=
  {| _digest := λ key p,
       take DIGEST_LENGTH (key ++ p ++ replicate DIGEST_LENGTH Byte.x00);
     generateBytes := λ n, replicate n Byte.x2a;
     SERVER_KEY := [Byte.x47; Byte.x65; Byte.x6e];
     DIGEST_WINDOW := 728;
     H264_MIN_FLASH := 0x09007300;
     H264_MIN_FMS := 0x03000101 |}.

(** The tokens of [ServerTokenDigestTestCase.test_repeat]: a client at
    [H264_MIN_FLASH] with a generated payload, and a server token for it
    whose payload is ['hi']. *)
Definition test_repeat_client : ClientToken.t :=
  (ClientToken.generatePayload (H := sample_primitives)
     (ClientToken.new 0 0x09007300 None)).2.

Definition test_repeat_token : ServerToken.t :=
  ServerToken.new (Some test_repeat_client) 0 0x03000101
    (Some [Byte.x68; Byte.x69]).


(** The token of [ServerTokenClassTestCase.test_generate_payload]:
    [ServerToken(ClientToken())]. *)
Definition test_generate_payload_token : ServerToken.t :=
  ServerToken.new (Some (ClientToken.new 0 0 None)) 0 0 None.

End Handshake.

(** * Properties *)

(** ** The call registry *)

Module RpcFacts.
Import Eff Eff.Notations Rpc.

Section BaseCallHandler.
Context {A : Type}.
Implicit Types (self : BaseCallHandler A) (ops : list (op A)).

Lemma dict_pop_spec key (d : gmap Z A) :
  dict_pop key d = (d !! key, delete key d).
Proof.
  unfold dict_pop. destruct (d !! key) eqn:E; [done|].
  by rewrite delete_id.
Qed.

Lemma finishCall_spec callId self :
  finishCall callId self =
    (_activeCalls self !! callId,
     {| _lastCallId := _lastCallId self;
        _activeCalls := delete callId (_activeCalls self) |}).
Proof. unfold finishCall. by rewrite dict_pop_spec. Qed.

Lemma discardCall_spec callId self :
  discardCall callId self =
    (_activeCalls self !! callId,
     {| _lastCallId := _lastCallId self;
        _activeCalls := delete callId (_activeCalls self) |}).
Proof. unfold discardCall. by rewrite dict_pop_spec. Qed.

Lemma finishCall_inactive callId self :
  _activeCalls self !! callId = None → finishCall callId self = (None, self).
Proof.
  intros E. unfold finishCall, dict_pop. rewrite E. by destruct self.
Qed.

Lemma isCallActive_false callId self :
  isCallActive callId self = false ↔ _activeCalls self !! callId = None.
Proof.
  unfold isCallActive. rewrite bool_decide_eq_false, eq_None_not_Some. done.
Qed.

(** *** The clock of ids *)

Lemma apply_op_lastCallId o self :
  _lastCallId (apply_op o self).2 =
    match o with
    | InitiateCall _ => _lastCallId self + 1
    | _ => _lastCallId self
    end.
Proof.
  destruct o; simpl; rewrite ?finishCall_spec, ?discardCall_spec; done.
Qed.

Lemma apply_op_id o self :
  (apply_op o self).1 =
    match o with
    | InitiateCall _ => Some (_lastCallId self + 1)
    | _ => None
    end.
Proof. by destruct o. Qed.

Lemma run_cons o ops self :
  run (o :: ops) self =
    (from_option (λ i, [i]) [] (apply_op o self).1
       ++ (run ops (apply_op o self).2).1,
     (run ops (apply_op o self).2).2).
Proof.
  simpl. destruct (apply_op o self) as [r s']. simpl.
  by destruct (run ops s') as [ids s''].
Qed.

Lemma run_app ops1 ops2 self :
  run (ops1 ++ ops2) self =
    ((run ops1 self).1 ++ (run ops2 (run ops1 self).2).1,
     (run ops2 (run ops1 self).2).2).
Proof.
  revert self. induction ops1 as [|o ops1 IH]; intros self.
  - simpl. by destruct (run ops2 self).
  - rewrite <- app_comm_cons, !run_cons, IH. simpl. by rewrite app_assoc.
Qed.

(** The ids handed out during a session lie strictly above the last id
    before it and at most at the last id after it; [_lastCallId] never
    goes down. *)
Lemma run_bounds ops self :
  _lastCallId self ≤ _lastCallId (run ops self).2 ∧
  Forall (λ i, _lastCallId self < i ≤ _lastCallId (run ops self).2)
    (run ops self).1.
Proof.
  revert self. induction ops as [|o ops IH]; intros self.
  - simpl. split; [lia | constructor].
  - rewrite run_cons.
    pose proof (apply_op_lastCallId o self) as Hl.
    pose proof (apply_op_id o self) as Hid.
    destruct (apply_op o self) as [r s1]. simpl in Hl, Hid |- *.
    destruct (IH s1) as [Hle Hall]. subst r.
    destruct o; simpl; (split; [lia|]);
      try (eapply Forall_impl; [exact Hall | simpl; intros; lia]).
    constructor; [lia|].
    eapply Forall_impl; [exact Hall | simpl; intros; lia].
Qed.

Lemma run_sorted ops self : StronglySorted Z.lt (run ops self).1.
Proof.
  revert self. induction ops as [|o ops IH]; intros self.
  - constructor.
  - rewrite run_cons.
    pose proof (apply_op_lastCallId o self) as Hl.
    pose proof (apply_op_id o self) as Hid.
    destruct (apply_op o self) as [r s1]. simpl in Hl, Hid |- *.
    pose proof (IH s1) as Hs. destruct (run_bounds ops s1) as [_ Hall].
    subst r. destruct o; simpl; try exact Hs.
    constructor; [exact Hs|].
    eapply Forall_impl; [exact Hall | simpl; intros; lia].
Qed.

Lemma sorted_lt_NoDup (l : list Z) : StronglySorted Z.lt l → NoDup l.
Proof.
  induction 1 as [|x l Hs IH Hall]; constructor; [|done].
  intros Hin. rewrite Forall_forall in Hall.
  specialize (Hall x Hin). lia.
Qed.

(** C1: call ids returned by [initiateCall] are strictly increasing.
    After any session [ops] on a handler, one more [initiateCall] returns
    [_lastCallId + 1], which is strictly greater than every id returned
    before; the ids returned over a whole session are strictly increasing
    and pairwise distinct, whatever [finishCall] and [discardCall] removed
    in between. *)
Theorem initiateCall_ids_increasing ops (args : A) self :
  (run (ops ++ [InitiateCall args]) self).1 =
    (run ops self).1 ++ [_lastCallId (run ops self).2 + 1]
  ∧ (initiateCall args (run ops self).2).1 = _lastCallId (run ops self).2 + 1
  ∧ Forall (λ i, i < _lastCallId (run ops self).2 + 1) (run ops self).1
  ∧ StronglySorted Z.lt (run ops self).1
  ∧ NoDup (run ops self).1.
Proof.
  split; [|split; [|split; [|split]]].
  - rewrite run_app. reflexivity.
  - reflexivity.
  - destruct (run_bounds ops self) as [_ Hall].
    eapply Forall_impl; [exact Hall | simpl; intros; lia].
  - apply run_sorted.
  - apply sorted_lt_NoDup, run_sorted.
Qed.

(** C6: [finishCall] and [discardCall] are the same function on the
    registry: both return the context stored for [callId] and remove it,
    or return [None] and leave the registry as it is when the call is not
    active. *)
Theorem finishCall_discardCall_equal callId self :
  finishCall callId self = discardCall callId self
  ∧ match getCallContext callId self with
    | Some ctx =>
        finishCall callId self =
          (Some ctx,
           {| _lastCallId := _lastCallId self;
              _activeCalls := delete callId (_activeCalls self) |})
        ∧ isCallActive callId (finishCall callId self).2 = false
    | None => finishCall callId self = (None, self)
    end.
Proof.
  split; [reflexivity|].
  unfold getCallContext. destruct (_activeCalls self !! callId) eqn:E.
  - rewrite finishCall_spec, E. split; [done|].
    apply isCallActive_false. simpl. apply lookup_delete_eq.
  - by apply finishCall_inactive.
Qed.

(** *** Active ids stay within [1 .. _lastCallId] *)

Lemma ids_in_range_init : ids_in_range (@__init__ A).
Proof.
  split; [done|]. intros k [x Hx]. simpl in Hx.
  by rewrite lookup_empty in Hx.
Qed.

Lemma ids_in_range_initiateCall (args : A) self :
  ids_in_range self → ids_in_range (initiateCall args self).2.
Proof.
  intros [H0 Hk]. split; simpl; unfold getNextCallId; [lia|].
  intros k. rewrite lookup_insert. case_decide; [lia|].
  intros Hs. specialize (Hk k Hs). lia.
Qed.

Lemma ids_in_range_delete callId self :
  ids_in_range self →
  ids_in_range {| _lastCallId := _lastCallId self;
                  _activeCalls := delete callId (_activeCalls self) |}.
Proof.
  intros [H0 Hk]. split; simpl; [done|].
  intros k. rewrite lookup_delete. case_decide.
  - by intros [? ?].
  - apply Hk.
Qed.

Lemma ids_in_range_apply_op o self :
  ids_in_range self → ids_in_range (apply_op o self).2.
Proof.
  intros H. destruct o; simpl;
    rewrite ?finishCall_spec, ?discardCall_spec; simpl;
    auto using ids_in_range_delete.
  by apply ids_in_range_initiateCall.
Qed.

Lemma ids_in_range_run ops self :
  ids_in_range self → ids_in_range (run ops self).2.
Proof.
  revert self. induction ops as [|o ops IH]; intros self H; [done|].
  rewrite run_cons. simpl. by apply IH, ids_in_range_apply_op.
Qed.

Lemma ids_in_range_sentinel self :
  ids_in_range self → _activeCalls self !! NO_RESULT = None.
Proof.
  intros [_ Hk]. apply eq_None_not_Some. intros Hs.
  specialize (Hk _ Hs). unfold NO_RESULT in Hk. lia.
Qed.

End BaseCallHandler.

(** *** The call initiator *)

Section AbstractCallInitiator.
Context {value exn transport : Type}.
Context {sender : IMessageSender value exn transport}.
Context {none : PyNone value} {twisted : TwistedErrors exn}.
Implicit Types (self : Initiator value transport).
Implicit Types (name : string) (args : list value) (command : option value).
Implicit Types (result : value) (callId : Z).

Lemma callRemote_spec name args command self :
  callRemote name args command self =
    let m := mkInvoke name NO_RESULT command args in
    (match (sendMessage m (wire self)).2 with
     | None => Return ()
     | Some e => Raise e
     end,
     {| handler := handler self; wire := (sendMessage m (wire self)).1;
        deferreds := deferreds self; events := events self ++ [sent m] |}).
Proof.
  unfold callRemote, self_sendMessage. simpl.
  destruct (sendMessage _ _) as [t [e|]]; reflexivity.
Qed.

Lemma callRemoteWithResult_spec name args command self :
  callRemoteWithResult name args command self =
    let callId := getNextCallId (handler self) in
    let d := deferreds self in
    let m := mkInvoke name callId command args in
    let calls := _activeCalls (handler self) in
    match (sendMessage m (wire self)).2 with
    | None =>
        (Return d,
         {| handler :=
              {| _lastCallId := callId;
                 _activeCalls := <[callId := (d, name, args, command)]> calls |};
            wire := (sendMessage m (wire self)).1;
            deferreds := S d; events := events self ++ [sent m] |})
    | Some e =>
        (Raise e,
         {| handler :=
              {| _lastCallId := callId; _activeCalls := delete callId calls |};
            wire := (sendMessage m (wire self)).1;
            deferreds := S d; events := events self ++ [sent m] |})
    end.
Proof.
  unfold callRemoteWithResult, bind, try_except, new_Deferred, inherited,
    self_sendMessage, raise, ret. simpl.
  destruct (sendMessage _ _) as [t [e|]]; simpl; [|reflexivity].
  rewrite discardCall_spec. simpl.
  by rewrite delete_insert_eq.
Qed.

Lemma fired_snoc_log (evs : list (event value)) fmt logged :
  fired (evs ++ [log_msg fmt logged]) = fired evs.
Proof. unfold fired. rewrite omap_app. simpl. apply app_nil_r. Qed.

Lemma called_ext d self self' :
  fired (events self) = fired (events self') → called d self = called d self'.
Proof. unfold called. by intros ->. Qed.

Lemma handleRemoteResponse_spec name callId result command self :
  handleRemoteResponse name callId result command self =
    (match getCallContext callId (handler self) with
     | None => Return ()
     | Some ctx => dispatch_outcome name result ctx self
     end,
     {| handler :=
          {| _lastCallId := _lastCallId (handler self);
             _activeCalls := delete callId (_activeCalls (handler self)) |};
        wire := wire self; deferreds := deferreds self;
        events :=
          events self ++ response_events name callId result command self |}).
Proof.
  unfold handleRemoteResponse, response_events, bind, inherited,
    getCallContext.
  rewrite finishCall_spec.
  destruct (_activeCalls (handler self) !! callId)
    as [[[[d oname] oargs] ocmd]|] eqn:E; simpl.
  - unfold dispatch_outcome, dispatch, context_deferred,
      Deferred_callback, Deferred_errback, new_RemoteCallFailed,
      command_log, emit, bind, ret, raise. simpl.
    destruct command as [c|]; simpl;
      repeat (case_decide; simpl);
      try (destruct (is_None result); simpl);
      rewrite ?(called_ext d _ self)
        by (simpl; rewrite ?fired_snoc_log; reflexivity);
      try (destruct (called d self); simpl);
      rewrite <- ?app_assoc, ?app_nil_r; reflexivity.
  - unfold unmatched_log, emit, bind, ret.
    case_decide; simpl; rewrite <- ?app_assoc; reflexivity.
Qed.

(** C7: [callRemote] calls [sendMessage] exactly once, with an invoke
    message tagged [NO_RESULT] (0), and leaves the registry as it was: no
    call is registered and [_lastCallId] does not advance.  It returns
    [None] when [sendMessage] returns; an exception of [sendMessage] is
    not caught. *)
Theorem callRemote_frame name args command self t r :
  sendMessage (mkInvoke name NO_RESULT command args) (wire self) = (t, r) →
  callRemote name args command self =
    (match r with None => Return () | Some e => Raise e end,
     {| handler := handler self; wire := t; deferreds := deferreds self;
        events :=
          events self ++ [sent (mkInvoke name NO_RESULT command args)] |})
  ∧ handler (callRemote name args command self).2 = handler self
  ∧ invoke_id (mkInvoke name NO_RESULT command args) = 0.
Proof.
  intros Hsend. rewrite callRemote_spec. simpl. rewrite Hsend. done.
Qed.

(** C4: [callRemoteWithResult] registers a call under the id
    [_lastCallId + 1] and sends one invoke message tagged with that id.
    If sending raises, the exception reaches the caller and the registry
    holds no entry for the id; if sending returns, the Deferred is
    returned and the registry holds [(d, name, args, command)] under the
    id. *)
Theorem callRemoteWithResult_failed_send name args command self t r :
  sendMessage
    (mkInvoke name (getNextCallId (handler self)) command args) (wire self)
    = (t, r) →
  events (callRemoteWithResult name args command self).2 =
    events self
    ++ [sent (mkInvoke name (getNextCallId (handler self)) command args)]
  ∧ _lastCallId (handler (callRemoteWithResult name args command self).2) =
      _lastCallId (handler self) + 1
  ∧ match r with
    | Some e =>
        (callRemoteWithResult name args command self).1 = Raise e
        ∧ isCallActive (getNextCallId (handler self))
            (handler (callRemoteWithResult name args command self).2) = false
        ∧ _activeCalls
            (handler (callRemoteWithResult name args command self).2) =
          delete (getNextCallId (handler self)) (_activeCalls (handler self))
    | None =>
        (callRemoteWithResult name args command self).1 =
          Return (deferreds self)
        ∧ getCallContext (getNextCallId (handler self))
            (handler (callRemoteWithResult name args command self).2) =
          Some (deferreds self, name, args, command)
    end.
Proof.
  intros Hsend. rewrite callRemoteWithResult_spec. simpl. rewrite Hsend.
  destruct r as [e|]; simpl.
  - repeat split. apply isCallActive_false. simpl. apply lookup_delete_eq.
  - repeat split. unfold getCallContext. simpl. apply lookup_insert_eq.
Qed.

Lemma handleRemoteResponse_inactive name callId result command self :
  _activeCalls (handler self) !! callId = None →
  handleRemoteResponse (exn := exn) name callId result command self =
    (Return (),
     {| handler := handler self; wire := wire self;
        deferreds := deferreds self;
        events := events self ++ unmatched_log name callId result |}).
Proof.
  intros Hna. rewrite handleRemoteResponse_spec.
  unfold response_events, getCallContext.
  rewrite Hna, delete_id by done.
  by destruct (handler self).
Qed.

(** C2: when [callId] is not an active call, [handleRemoteResponse]
    returns [None] without raising and leaves [_activeCalls] and
    [_lastCallId] unchanged; it only logs: two lines about an unexpected
    response when [callId] is 0, one line about an unknown call id
    otherwise. *)
Theorem handleRemoteResponse_unknown name callId result command self :
  isCallActive callId (handler self) = false →
  handleRemoteResponse (exn := exn) name callId result command self =
    (Return (),
     {| handler := handler self; wire := wire self;
        deferreds := deferreds self;
        events :=
          events self ++
          if decide (callId = NO_RESULT) then
            [log_msg
               "Attempted to handle an RPC response when one was not expected."
               [];
             log_msg "Response context was %r%r" [LStr name; LObj result]]
          else
            [log_msg "Unknown RPC callId %r for %r with result %r"
               [LInt callId; LStr name; LObj result]] |}).
Proof.
  intros Hna. apply isCallActive_false in Hna.
  by rewrite handleRemoteResponse_inactive.
Qed.

(** C3: what [handleRemoteResponse] does when [callId] is an active
    call with context [(d, originalName, originalArgs, originalCommand)].
    It removes the call from the registry, writes the log lines for a
    response that carries a command, and then: for the name ["_result"]
    it calls [d.callback(result)]; for the name ["_error"] it constructs
    [RemoteCallFailed(result)] and calls [d.errback] with it; for any
    other name it writes three log lines, fires [d] on neither path and
    returns.  The call is removed in every case.  Where the code falls
    short of the claim: with the name ["_error"] and the result [None]
    the constructor raises [NoCurrentExceptionError], so [errback] is
    never called and the continuation is left unresolved.  A Deferred
    that was fired before raises [AlreadyCalledError] from [callback]
    and [errback]. *)
Theorem handleRemoteResponse_dispatch
    name callId result command self d originalName originalArgs
    originalCommand :
  getCallContext callId (handler self) =
    Some (d, originalName, originalArgs, originalCommand) →
  ∃ new,
    (handleRemoteResponse name callId result command self).2 =
      {| handler :=
           {| _lastCallId := _lastCallId (handler self);
              _activeCalls := delete callId (_activeCalls (handler self)) |};
         wire := wire self; deferreds := deferreds self;
         events :=
           events self
           ++ command_log command result originalName originalArgs ++ new |}
    ∧ isCallActive callId
        (handler (handleRemoteResponse name callId result command self).2)
      = false
    ∧ ((handleRemoteResponse name callId result command self).1, new) =
        if decide (name = RESPONSE_RESULT) then
          if called d self then (Raise AlreadyCalledError, [])
          else (Return (), [callback d result])
        else if decide (name = RESPONSE_ERROR) then
          if is_None result then (Raise NoCurrentExceptionError, [])
          else if called d self then (Raise AlreadyCalledError, [])
          else (Return (), [errback d (RemoteCallFailed result)])
        else
          (Return (),
           [log_msg "Unknown response type %r" [LStr name];
            log_msg "Result = %r" [LObj result];
            log_msg "Original call was %r%r with command %r"
              [LStr originalName; LTuple originalArgs;
               LOpt originalCommand]]).
Proof.
  intros Hctx.
  rewrite handleRemoteResponse_spec. unfold response_events.
  rewrite Hctx. simpl.
  eexists. split; [reflexivity|]. split.
  - apply isCallActive_false. simpl. apply lookup_delete_eq.
  - unfold dispatch_outcome, context_deferred. simpl.
    repeat case_decide; try reflexivity;
      destruct (is_None result); try reflexivity;
      destruct (called d self); reflexivity.
Qed.

(** *** The sentinel id *)

Lemma serve_ids_in_range (r : request value) self :
  ids_in_range (handler self) → ids_in_range (handler (serve r self)).
Proof.
  intros Hin. destruct r as [o| | |]; simpl.
  - unfold inherited. pose proof (ids_in_range_apply_op o _ Hin) as Ho.
    by destruct (apply_op o (handler self)).
  - by rewrite callRemote_spec.
  - rewrite callRemoteWithResult_spec. simpl.
    pose proof (ids_in_range_initiateCall
                  (deferreds self, name, args, command) _ Hin) as Hi.
    destruct (sendMessage _ _).2; simpl; [|exact Hi].
    apply (ids_in_range_delete (getNextCallId (handler self))) in Hi.
    simpl in Hi. by rewrite delete_insert_eq in Hi.
  - rewrite handleRemoteResponse_spec. simpl.
    by apply ids_in_range_delete.
Qed.

Lemma serve_all_ids_in_range (rs : list (request value)) self :
  ids_in_range (handler self) → ids_in_range (handler (serve_all rs self)).
Proof.
  revert self. induction rs as [|r rs IH]; intros self Hin; [done|].
  simpl. by apply IH, serve_ids_in_range.
Qed.

(** C10: in every state a handler can reach from its construction, the
    sentinel id 0 is not a key of [_activeCalls]: [isCallActive(0)] is
    [False], [finishCall(0)] returns [None] and changes nothing, and
    [handleRemoteResponse] with call id 0 takes the branch without an
    active call.  This holds for a [BaseCallHandler] under any sequence of
    its methods and for a call initiator under any sequence of its own and
    its inherited methods. *)
Theorem sentinel_never_active {A : Type} (ops : list (op A))
    (rs : list (request value)) (t : transport) name result command :
  isCallActive NO_RESULT (run ops (@__init__ A)).2 = false
  ∧ finishCall NO_RESULT (run ops (@__init__ A)).2 =
      (None, (run ops (@__init__ A)).2)
  ∧ isCallActive NO_RESULT (handler (serve_all rs (new_initiator t))) = false
  ∧ finishCall NO_RESULT (handler (serve_all rs (new_initiator t))) =
      (None, handler (serve_all rs (new_initiator t)))
  ∧ handleRemoteResponse (exn := exn) name NO_RESULT result command
      (serve_all rs (new_initiator t)) =
      (Return (),
       {| handler := handler (serve_all rs (new_initiator t));
          wire := wire (serve_all rs (new_initiator t));
          deferreds := deferreds (serve_all rs (new_initiator t));
          events :=
            events (serve_all rs (new_initiator t)) ++
            [log_msg
               "Attempted to handle an RPC response when one was not expected."
               [];
             log_msg "Response context was %r%r" [LStr name; LObj result]] |}).
Proof.
  assert (Hb : _activeCalls (run ops (@__init__ A)).2 !! NO_RESULT = None)
    by apply ids_in_range_sentinel, ids_in_range_run, ids_in_range_init.
  assert (Hi : _activeCalls (handler (serve_all rs (new_initiator t)))
                 !! NO_RESULT = None).
  { apply ids_in_range_sentinel, serve_all_ids_in_range. simpl.
    apply ids_in_range_init. }
  split; [by apply isCallActive_false|].
  split; [by apply finishCall_inactive|].
  split; [by apply isCallActive_false|].
  split; [by apply finishCall_inactive|].
  by rewrite handleRemoteResponse_inactive.
Qed.

End AbstractCallInitiator.

(** *** The theorems at work on concrete initiators *)

Lemma callRemote_frame_witness :
  sendMessage (IMessageSender := RecordingSender (exn := PyException))
    (mkInvoke "play" NO_RESULT None [7]) (wire recording_initiator)
    = ([mkInvoke "play" 0 None [7]], None)
  ∧ callRemote (sender := RecordingSender (exn := PyException))
      "play" [7] None recording_initiator =
      (Return (),
       {| handler := __init__; wire := [mkInvoke "play" 0 None [7]];
          deferreds := 0;
          events := [sent (mkInvoke "play" 0 None [7])] |}).
Proof.
  split; [reflexivity|].
  apply (callRemote_frame (sender := RecordingSender (exn := PyException))
           "play" [7] None recording_initiator
           [mkInvoke "play" 0 None [7]] None).
  reflexivity.
Defined.

Lemma callRemoteWithResult_failed_send_witness :
  sendMessage (IMessageSender := AbstractSender)
    (mkInvoke "connect" (getNextCallId (handler abstract_initiator)) None [7])
    (wire abstract_initiator)
    = ((), Some NotImplementedError)
  ∧ (callRemoteWithResult (sender := AbstractSender)
       "connect" [7] None abstract_initiator).1
      = Raise NotImplementedError
  ∧ isCallActive 1
      (handler
         (callRemoteWithResult (sender := AbstractSender)
            "connect" [7] None abstract_initiator).2) = false.
Proof.
  split; [reflexivity|].
  destruct (callRemoteWithResult_failed_send (sender := AbstractSender)
              "connect" [7] None abstract_initiator ()
              (Some NotImplementedError) eq_refl) as (_ & _ & Hr & Hna & _).
  split; [exact Hr | exact Hna].
Defined.

Lemma handleRemoteResponse_unknown_witness :
  isCallActive 5 (handler abstract_initiator) = false
  ∧ handleRemoteResponse (exn := PyException) "_result" 5 42 None
      abstract_initiator =
      (Return (),
       {| handler := __init__; wire := (); deferreds := 0;
          events :=
            [log_msg "Unknown RPC callId %r for %r with result %r"
               [LInt 5; LStr "_result"; LObj 42]] |}).
Proof.
  split; [reflexivity|].
  apply (handleRemoteResponse_unknown (exn := PyException)
           "_result" 5 42 None abstract_initiator).
  reflexivity.
Defined.

Lemma handleRemoteResponse_dispatch_witness :
  getCallContext 1 (handler waiting_initiator)
    = Some (0%nat, "connect", [Some 7], None)
  ∧ (handleRemoteResponse (exn := PyException) "_error" 1 None None
       waiting_initiator).1 = Raise noCurrentExceptionError
  ∧ isCallActive 1
      (handler
         (handleRemoteResponse (exn := PyException) "_error" 1 None None
            waiting_initiator).2) = false
  ∧ fired
      (events
         (handleRemoteResponse (exn := PyException) "_error" 1 None None
            waiting_initiator).2) = [].
Proof.
  split; [reflexivity|].
  destruct (handleRemoteResponse_dispatch (exn := PyException)
              "_error" 1 None None waiting_initiator
              0%nat "connect" [Some 7] None eq_refl)
    as (new & Hstate & Hgone & Hrun).
  pose proof (f_equal fst Hrun) as Hres.
  pose proof (f_equal snd Hrun) as Hnew.
  split; [exact Hres|]. split; [exact Hgone|].
  rewrite Hstate. simpl in Hnew. rewrite Hnew. reflexivity.
Defined.

(** *** Sessions replayed on the model *)

(** Ids are not reused after [discardCall] and [finishCall]. *)
Example session_ids :
  (run [InitiateCall "a"; InitiateCall "b"; DiscardCall 2; FinishCall 1;
        InitiateCall "c"] __init__).1 = [1; 2; 3]
  ∧ _activeCalls
      (run [InitiateCall "a"; InitiateCall "b"; DiscardCall 2; FinishCall 1;
            InitiateCall "c"] __init__).2 = {[ 3 := "c" ]}.
Proof. split; reflexivity. Qed.

(** A call with result on the recording sender, answered by ["_result"]. *)
Example session_result :
  serve_all (sender := RecordingSender (exn := PyException))
    [CallRemoteWithResult "connect" [7] None;
     HandleRemoteResponse "_result" 1 42 None;
     HandleRemoteResponse "_result" 1 42 None]
    recording_initiator =
    {| handler := {| _lastCallId := 1; _activeCalls := ∅ |};
       wire := [mkInvoke "connect" 1 None [7]];
       deferreds := 1;
       events :=
         [sent (mkInvoke "connect" 1 None [7]);
          callback 0%nat 42;
          log_msg "Unknown RPC callId %r for %r with result %r"
            [LInt 1; LStr "_result"; LObj 42]] |}.
Proof. reflexivity. Qed.

(** On the abstract sender every call with result fails and leaves no
    entry behind; the ids go up all the same. *)
Example session_abstract :
  handler
    (serve_all (sender := AbstractSender)
       [CallRemoteWithResult "connect" [7] None;
        CallRemoteWithResult "play" [] None]
       abstract_initiator) =
    {| _lastCallId := 2; _activeCalls := ∅ |}.
Proof. reflexivity. Qed.

End RpcFacts.

(** ** The decoder's clock *)

Module CodecFacts.
Import Eff Eff.Notations Codec.

Section Decoder.
Context {bytes datatype : Type}.
Implicit Types (t : Harness bytes datatype) (meta : ChannelMeta datatype).
Implicit Types (evs : list (demuxed bytes datatype)).

(** One [next()] on a queued message. *)
Lemma Decoder_next_message t data meta rest :
  events t = Message data meta :: rest → plain t →
  Decoder_next t =
    (Return (),
     {| events := rest;
        streams :=
          <[meta_streamId meta :=
              {| stream_timestamp :=
                   timestamp_of (meta_streamId meta) t + meta_timestamp meta |}]>
            (streams t);
        expected_streams := None;
        failOnDispatch := false;
        messages :=
          messages t ++
          [(meta_streamId meta, meta_datatype meta,
            timestamp_of (meta_streamId meta) t + meta_timestamp meta,
            data)] |}).
Proof.
  intros Hev [Hexp Hfod].
  unfold Decoder_next, bind, MockChannelDemuxer_next. rewrite Hev.
  unfold getStream, add_timestamp, dispatchMessage, modify, bind, get, put,
    ret, timestamp_of, set_messages, set_streams, set_events,
    set_expected_streams.
  unfold stream_ref. simpl. rewrite Hexp. simpl.
  destruct (streams t !! meta_streamId meta) as [s|] eqn:Hs; simpl;
    rewrite ?Hs, ?Hfod, ?lookup_insert_eq, ?insert_insert_eq; simpl;
    reflexivity.
Qed.

(** One [next()] on a queued [(None, None)]. *)
Lemma Decoder_next_tick t rest :
  events t = Tick :: rest →
  Decoder_next t = (Return (), set_events rest t).
Proof.
  intros Hev. unfold Decoder_next, bind, MockChannelDemuxer_next.
  by rewrite Hev.
Qed.

Lemma timestamp_of_next_message t data meta rest s :
  events t = Message data meta :: rest → plain t →
  timestamp_of s (Decoder_next t).2 =
    timestamp_of s t
    + (if decide (meta_streamId meta = s) then meta_timestamp meta else 0).
Proof.
  intros Hev Hp. rewrite (Decoder_next_message _ _ _ _ Hev Hp).
  unfold timestamp_of, stream_ref. simpl. rewrite lookup_insert.
  case_decide; simpl; [subst; reflexivity | lia].
Qed.

(** The clock of every stream after a run of [next()] calls: its value
    before, plus the deltas of the messages that were for it. *)
Lemma Decoder_next_n_accumulates evs : ∀ t rest,
  events t = evs ++ rest → plain t →
  ∃ t', Decoder_next_n (length evs) t = (Return (), t')
    ∧ events t' = rest ∧ plain t'
    ∧ ∀ s, timestamp_of s t' = timestamp_of s t + deltas_for s evs.
Proof.
  induction evs as [|[|data meta] evs IH]; intros t rest Hev Hp.
  - exists t. simpl. repeat split; try apply Hp; [done | intros; lia].
  - simpl in Hev. simpl. unfold bind.
    rewrite (Decoder_next_tick _ _ Hev).
    destruct (IH (set_events (evs ++ rest) t) rest eq_refl Hp)
      as (t' & Hrun & Hev' & Hp' & Hts).
    exists t'. by rewrite Hrun.
  - simpl in Hev. simpl. unfold bind.
    pose proof (λ s, timestamp_of_next_message _ _ _ _ s Hev Hp) as Hstep.
    rewrite (Decoder_next_message _ _ _ _ Hev Hp) in Hstep |- *.
    match goal with |- context [Decoder_next_n _ ?t1] =>
      destruct (IH t1 rest eq_refl (conj eq_refl eq_refl))
        as (t' & Hrun & Hev' & Hp' & Hts)
    end.
    exists t'. rewrite Hrun. repeat split; try apply Hp'; [done|].
    intros s. rewrite Hts. simpl in Hstep. rewrite Hstep. lia.
Qed.

(** C8: the decoder adds each message's timestamp, a delta, to the
    running clock of the message's stream and dispatches with the clock's
    new value.  After message A with delta [a] and then message B with
    delta [b] on stream [S], the clock of [S] is its value before plus
    [a + b]: for a stream starting at 0 and the deltas 2 and 3 it is 5.
    The dispatcher is called with the accumulated timestamps. *)
Theorem Decoder_timestamps_accumulate
    t (S : Z) dataA dataB metaA metaB rest :
  events t = Message dataA metaA :: Message dataB metaB :: rest →
  plain t →
  meta_streamId metaA = S → meta_streamId metaB = S →
  ∃ t',
    Decoder_next_n 2 t = (Return (), t')
    ∧ events t' = rest
    ∧ timestamp_of S t' =
        timestamp_of S t + meta_timestamp metaA + meta_timestamp metaB
    ∧ messages t' =
        messages t ++
        [(S, meta_datatype metaA,
          timestamp_of S t + meta_timestamp metaA, dataA);
         (S, meta_datatype metaB,
          timestamp_of S t + meta_timestamp metaA + meta_timestamp metaB,
          dataB)]
    ∧ ∀ s, s ≠ S → timestamp_of s t' = timestamp_of s t.
Proof.
  intros Hev Hp <- HB. simpl. unfold bind.
  rewrite (Decoder_next_message _ _ _ _ Hev Hp).
  erewrite Decoder_next_message; [|reflexivity|by split].
  eexists. split; [reflexivity|].
  unfold timestamp_of, stream_ref. simpl. rewrite !HB.
  rewrite ?lookup_insert_eq, ?insert_insert_eq. simpl.
  rewrite <- app_assoc. simpl.
  split; [reflexivity|]. split; [lia|]. split; [reflexivity|].
  intros s Hne. by rewrite lookup_insert_ne.
Qed.

End Decoder.

(** [DecoderTestCase.test_incrementing_timestamp] and the dispatches
    [test_simple] looks at. *)
Lemma Decoder_timestamps_accumulate_witness :
  events test_incrementing_timestamp =
    [Message "foo" (mkMeta None None 2 2);
     Message "foo" (mkMeta None None 3 2)]
  ∧ plain test_incrementing_timestamp
  ∧ timestamp_of 2 test_incrementing_timestamp = 0
  ∧ ∃ t',
      Decoder_next_n 2 test_incrementing_timestamp = (Return (), t')
      ∧ timestamp_of 2 t' = 5
      ∧ messages t' = [(2, None, 2, "foo"); (2, None, 5, "foo")].
Proof.
  split; [reflexivity|]. split; [by split|]. split; [reflexivity|].
  destruct (Decoder_timestamps_accumulate test_incrementing_timestamp 2
              "foo" "foo" (mkMeta None None 2 2) (mkMeta None None 3 2) []
              eq_refl (conj eq_refl eq_refl) eq_refl eq_refl)
    as (t' & Hrun & _ & Hts & Hmsgs & _).
  exists t'. split; [exact Hrun|]. split; [exact Hts | exact Hmsgs].
Defined.

End CodecFacts.

(** ** Handshake tokens *)

Module HandshakeFacts.
Import Eff Handshake.


Section Tokens.
Context {P : Primitives}.

Lemma ClientToken_getDigest_empty (c : ClientToken.t) :
  ClientToken.payload c = None →
  ClientToken.getDigest c =
    (Raise (HandshakeError "No digest available for an empty handshake"), c).
Proof. intros Hp. unfold ClientToken.getDigest. by rewrite Hp. Qed.







(** [ServerToken.generatePayload] with a client token that has no
    payload: the error is the one of the client's [getDigest], as
    [ServerTokenClassTestCase.test_generate_payload] observes. *)
Lemma generatePayload_empty_client (self : ServerToken.t) c :
  ServerToken.payload self = None →
  ServerToken.client self = Some c →
  ClientToken.payload c = None →
  ServerToken.generatePayload self =
    (Raise (HandshakeError "No digest available for an empty handshake"),
     self).
Proof.
  intros Hp Hc Hcp. unfold ServerToken.generatePayload.
  rewrite Hp, Hc, (ClientToken_getDigest_empty _ Hcp).
  destruct self; simpl in *; by subst.
Qed.

(** [ServerNegotiator.generateToken] on a started negotiator without a
    client token. *)
Lemma generateToken_no_client (n : ServerNegotiator.t) :
  ServerNegotiator.started n = true →
  ServerNegotiator.client n = None →
  ServerNegotiator.generateToken n =
    (Raise (HandshakeError
       "client token is required before generating server token"), n).
Proof.
  intros Hs Hc. unfold ServerNegotiator.generateToken. by rewrite Hs, Hc.
Qed.


End Tokens.




(** *** The tests of the token classes, replayed on the model *)

(** [ServerTokenDigestTestCase.test_no_payload] *)
Example test_no_payload :
  (ServerToken.getDigest (H := sample_primitives)
     test_generate_payload_token).1 =
    Raise (HandshakeError "No digest available for an empty handshake").
Proof. reflexivity. Qed.

(** [ServerTokenDigestTestCase.test_version]: with [t.client = None] the
    digest is [None]. *)
Example test_version :
  (ServerToken.getDigest (H := sample_primitives)
     (ServerToken.set_client None test_repeat_token)).1 = Return None.
Proof. reflexivity. Qed.

(** [ServerTokenDigestTestCase.test_client_version]: a client below
    [H264_MIN_FLASH] has no digest, and neither has the server token. *)
Example test_client_version :
  (ServerToken.getDigest (H := sample_primitives)
     (ServerToken.new
        (Some (ClientToken.generatePayload (H := sample_primitives)
                 (ClientToken.new 0 0 None)).2)
        0 0x03000101 (Some [Byte.x61]))).1 = Return None.
Proof. vm_compute. reflexivity. Qed.

(** [ServerTokenClassTestCase.test_generate_payload], second half: with a
    generated client payload the server payload is 1536 + 1536 bytes and
    ends with the client's, and a second call changes nothing. *)
Example test_generate_payload :
  let c := (ClientToken.generatePayload (H := sample_primitives)
              (ClientToken.new 0 0 None)).2 in
  let r := ServerToken.generatePayload (H := sample_primitives)
             (ServerToken.new (Some c) 0 0 None) in
  r.1 = Return ()
  ∧ (length <$> ServerToken.payload r.2) = Some (1536 + 1536)%nat
  ∧ (drop 1536 <$> ServerToken.payload r.2) = ClientToken.payload c
  ∧ ServerToken.generatePayload (H := sample_primitives) r.2
    = (Return (), r.2).
Proof. vm_compute. repeat split. Qed.

(** [ClientTokenClassTestCase.test_getDigest]: the digest sits at the sum
    of the bytes 8..11 past the twelfth byte ("magic offset = 4"). *)
Example test_getDigest :
  (ClientToken.getDigest (H := sample_primitives)
     (ClientToken.new 0 0x09007300
        (Some (replicate 8 Byte.x00 ++ replicate 4 Byte.x01
               ++ replicate 4 Byte.x02 ++ replicate 32 Byte.x00)))).1
  = Return (Some (replicate 32 Byte.x00)).
Proof. vm_compute. reflexivity. Qed.

(** [ServerNegotiatorTestCase.test_generateToken] *)
Example test_generateToken :
  (ServerNegotiator.generateToken (H := sample_primitives)
     ServerNegotiator.new).1 =
    Raise (HandshakeError
      "`start` must be called before generating server token")
  ∧ (ServerNegotiator.generateToken (H := sample_primitives)
       (ServerNegotiator.start None None ServerNegotiator.new)).1 =
      Raise (HandshakeError
        "client token is required before generating server token")
  ∧ ServerNegotiator.server
      (ServerNegotiator.generateToken (H := sample_primitives)
         (ServerNegotiator.set_client (Some (ClientToken.new 0 0 None))
            (ServerNegotiator.start (Some 12345) (Some 0x020102)
               ServerNegotiator.new))).2 =
      Some (ServerToken.new (Some (ClientToken.new 0 0 None)) 12345 0 None).
Proof. repeat split. Qed.

End HandshakeFacts.

(** ** Whole sessions on the call registry *)

Module RpcSessionFacts.
Import Eff Eff.Notations Rpc RpcFacts.

Section BaseCallHandler.
Context {A : Type}.
Implicit Types (self : BaseCallHandler A) (ops : list (op A)).

Lemma apply_op_calls o self k :
  _activeCalls (apply_op o self).2 !! k =
    match o with
    | InitiateCall args =>
        if decide (getNextCallId self = k) then Some args
        else _activeCalls self !! k
    | FinishCall callId | DiscardCall callId =>
        if decide (callId = k) then None else _activeCalls self !! k
    | _ => _activeCalls self !! k
    end.
Proof.
  destruct o; simpl; rewrite ?finishCall_spec, ?discardCall_spec; simpl;
    rewrite ?lookup_insert, ?lookup_delete; done.
Qed.

Lemma ids_in_range_next_free self :
  ids_in_range self → _activeCalls self !! getNextCallId self = None.
Proof.
  intros [_ Hk]. apply eq_None_not_Some. intros Hs.
  specialize (Hk _ Hs). unfold getNextCallId in Hk. lia.
Qed.

Lemma session_ids_bounds ops self :
  (run ops self).1 =
    seqZ (_lastCallId self + 1) (Z.of_nat (length (run ops self).1))
  ∧ _lastCallId (run ops self).2 =
      _lastCallId self + Z.of_nat (length (run ops self).1).
Proof.
  revert self. induction ops as [|o ops IH]; intros self.
  - simpl. split; [by rewrite seqZ_nil | lia].
  - rewrite run_cons.
    pose proof (apply_op_lastCallId o self) as Hl.
    pose proof (apply_op_id o self) as Hid.
    destruct (apply_op o self) as [r s1]. simpl in Hl, Hid |- *.
    destruct (IH s1) as [Hids Hlast]. subst r.
    destruct o; simpl; rewrite Hl in Hids, Hlast;
      try (split; [exact Hids | exact Hlast]).
    split.
    + rewrite (seqZ_cons (_lastCallId self + 1)) by lia.
      f_equal. rewrite Hids at 1. f_equal; lia.
    + lia.
Qed.

(** X1: The ids handed out in a session are consecutive: from a handler whose
    last id is [n] they are [n + 1, n + 2, ...] without a gap, whatever was
    finished or discarded in between, and [_lastCallId] ends at the last
    of them. *)
Theorem session_ids_consecutive ops self :
  (run ops self).1 =
    seqZ (_lastCallId self + 1) (Z.of_nat (length (run ops self).1))
  ∧ _lastCallId (run ops self).2 =
      _lastCallId self + Z.of_nat (length (run ops self).1)
  ∧ getNextCallId (run ops self).2 =
      getNextCallId self + Z.of_nat (length (run ops self).1).
Proof.
  destruct (session_ids_bounds ops self) as [H1 H2]. unfold getNextCallId.
  split; [exact H1|]. split; [exact H2 | lia].
Qed.

(** X2: A call that was just initiated can be looked up and finished: on a
    handler whose active ids lie within [1 .. _lastCallId], [finishCall]
    on the id returned by [initiateCall] gives back the stored context and
    restores the mapping of active calls; only [_lastCallId] has moved. *)
Theorem initiateCall_finishCall_roundtrip (args : A) self :
  ids_in_range self →
  isCallActive (initiateCall args self).1 (initiateCall args self).2 = true
  ∧ getCallContext (initiateCall args self).1 (initiateCall args self).2
    = Some args
  ∧ finishCall (initiateCall args self).1 (initiateCall args self).2 =
      (Some args,
       {| _lastCallId := _lastCallId self + 1;
          _activeCalls := _activeCalls self |}).
Proof.
  intros Hin. pose proof (ids_in_range_next_free _ Hin) as Hfree.
  unfold getCallContext, isCallActive. rewrite finishCall_spec. simpl.
  rewrite lookup_insert_eq, delete_insert_eq, delete_id by done.
  split; [|done]. apply bool_decide_eq_true. eauto.
Qed.

(** X3: [initiateCall] never overwrites an active call: on a handler whose
    active ids lie within [1 .. _lastCallId], a call that was active
    before is active afterwards under another id than the one returned,
    with the same context. *)
Theorem initiateCall_keeps_active (args : A) self k ctx :
  ids_in_range self →
  getCallContext k self = Some ctx →
  k ≠ (initiateCall args self).1
  ∧ getCallContext k (initiateCall args self).2 = Some ctx.
Proof.
  intros Hin Hctx. pose proof (ids_in_range_next_free _ Hin) as Hfree.
  unfold getCallContext in *. simpl.
  assert (k ≠ getNextCallId self) by congruence.
  split; [done|]. by rewrite lookup_insert_ne.
Qed.

(** X4: A finished call is forgotten: finishing (or discarding) the same id
    again returns [None] and changes nothing. *)
Theorem finishCall_twice callId self :
  finishCall callId (finishCall callId self).2 =
    (None, (finishCall callId self).2)
  ∧ discardCall callId (finishCall callId self).2 =
      (None, (finishCall callId self).2)
  ∧ isCallActive callId (finishCall callId self).2 = false.
Proof.
  assert (Hgone : _activeCalls (finishCall callId self).2 !! callId = None).
  { rewrite finishCall_spec. simpl. apply lookup_delete_eq. }
  split; [by apply finishCall_inactive|].
  split; [|by apply isCallActive_false].
  rewrite discardCall_spec, Hgone, delete_id by done.
  by destruct (finishCall callId self).2.
Qed.

(** X5: Finishing one call does not touch another: for two different ids the
    context returned for the second is the one stored before the first
    was finished, and the two calls can be finished in either order with
    the same final handler. *)
Theorem finishCall_independent a b self :
  a ≠ b →
  (finishCall b (finishCall a self).2).1 = getCallContext b self
  ∧ (finishCall b (finishCall a self).2).2 =
      (finishCall a (finishCall b self).2).2.
Proof.
  intros Hne. rewrite !finishCall_spec. simpl.
  rewrite lookup_delete_ne by done. split; [done|].
  f_equal. apply delete_delete.
Qed.

(** X6: Call ids are not reused: an id at or below [_lastCallId] that is not
    active stays inactive through every later session on the handler. *)
Theorem inactive_id_stays_inactive ops self callId :
  callId ≤ _lastCallId self →
  isCallActive callId self = false →
  isCallActive callId (run ops self).2 = false.
Proof.
  revert self. induction ops as [|o ops IH]; intros self Hle Hna; [done|].
  rewrite run_cons. simpl. apply IH.
  - rewrite apply_op_lastCallId. destruct o; lia.
  - apply isCallActive_false. apply isCallActive_false in Hna.
    rewrite apply_op_calls.
    destruct o; repeat case_decide; unfold getNextCallId in *;
      try done; lia.
Qed.

(** X7: Every active call was initiated: after a session on a new handler,
    each active id is one of the ids [initiateCall] returned in that
    session, and there are at most as many active calls as calls
    initiated. *)
Theorem active_ids_were_issued ops :
  dom (_activeCalls (run ops (@__init__ A)).2)
    ⊆ list_to_set (C := gset Z) (run ops (@__init__ A)).1
  ∧ (size (_activeCalls (run ops (@__init__ A)).2)
     ≤ length (run ops (@__init__ A)).1)%nat.
Proof.
  pose proof (ids_in_range_run ops _ (@ids_in_range_init A)) as [_ Hk].
  destruct (session_ids_bounds ops (@__init__ A)) as [Hids Hlast].
  simpl in Hids, Hlast.
  assert (Hsub : dom (_activeCalls (run ops (@__init__ A)).2)
                   ⊆ list_to_set (C := gset Z) (run ops (@__init__ A)).1).
  { intros k Hdom. apply elem_of_dom in Hdom. specialize (Hk k Hdom).
    apply elem_of_list_to_set. rewrite Hids. apply elem_of_seqZ. lia. }
  split; [exact Hsub|].
  rewrite <- size_dom.
  etransitivity; [apply subseteq_size, Hsub|].
  rewrite Hids at 1. rewrite size_list_to_set by apply NoDup_seqZ.
  by rewrite length_seqZ, Nat2Z.id.
Qed.

(** X8: No call is lost or counted twice: over a session on a handler whose
    active ids lie within [1 .. _lastCallId], the number of active calls
    grows by the number of calls initiated and shrinks by the number of
    [finishCall] and [discardCall] calls that returned a context. *)
Theorem active_calls_accounted ops self :
  ids_in_range self →
  (size (_activeCalls (run ops self).2) + removed ops self
   = size (_activeCalls self) + length (run ops self).1)%nat.
Proof.
  revert self. induction ops as [|o ops IH]; intros self Hin.
  - simpl. lia.
  - rewrite run_cons. simpl.
    pose proof (IH _ (ids_in_range_apply_op o _ Hin)) as Hrec.
    pose proof (ids_in_range_next_free _ Hin) as Hfree.
    destruct o as [args|callId|callId| | |]; simpl in Hrec |- *;
      rewrite ?finishCall_spec, ?discardCall_spec in Hrec |- *;
      simpl in Hrec |- *; try (rewrite Hrec; lia).
    + rewrite map_size_insert_None in Hrec by done. rewrite Hrec. lia.
    + destruct (_activeCalls self !! callId) as [ctx|] eqn:E; simpl.
      * rewrite Nat.add_succ_r, Hrec.
        rewrite (map_size_delete_Some callId (_activeCalls self)) by eauto.
        assert (size (_activeCalls self) ≠ 0%nat).
        { intros H0. apply map_size_empty_inv in H0.
          by rewrite H0, lookup_empty in E. }
        lia.
      * rewrite delete_id in Hrec |- * by done. rewrite Hrec. lia.
    + destruct (_activeCalls self !! callId) as [ctx|] eqn:E; simpl.
      * rewrite Nat.add_succ_r, Hrec.
        rewrite (map_size_delete_Some callId (_activeCalls self)) by eauto.
        assert (size (_activeCalls self) ≠ 0%nat).
        { intros H0. apply map_size_empty_inv in H0.
          by rewrite H0, lookup_empty in E. }
        lia.
      * rewrite delete_id in Hrec |- * by done. rewrite Hrec. lia.
Qed.

End BaseCallHandler.

Section AbstractCallInitiator.
Context {value exn transport : Type}.
Context {sender : IMessageSender value exn transport}.
Context {none : PyNone value} {twisted : TwistedErrors exn}.
Implicit Types (self : Initiator value transport).
Implicit Types (name : string) (args : list value) (command : option value).
Implicit Types (result : value) (callId : Z).
Implicit Types (evs : list (event value)) (ctx : CallContext value).

Lemma serve_all_cons (r : request value) rs self :
  serve_all (r :: rs) self = serve_all rs (serve r self).
Proof. reflexivity. Qed.

Lemma fired_app evs1 evs2 : fired (evs1 ++ evs2) = fired evs1 ++ fired evs2.
Proof. apply omap_app. Qed.

Lemma wire_ids_app evs1 evs2 :
  wire_ids (evs1 ++ evs2) = wire_ids evs1 ++ wire_ids evs2.
Proof. apply omap_app. Qed.

Lemma fired_dispatch name result ctx self :
  fired (dispatch name result ctx self) = []
  ∨ fired (dispatch name result ctx self) = [context_deferred ctx].
Proof.
  destruct ctx as [[[d oname] oargs] ocmd].
  unfold dispatch, context_deferred. simpl.
  repeat case_decide; try (by left);
    destruct (is_None result); try (by left);
    destruct (called d self); by (left + right).
Qed.

Lemma fired_response name callId result command self :
  fired (response_events name callId result command self) =
    match getCallContext callId (handler self) with
    | Some ctx => fired (dispatch name result ctx self)
    | None => []
    end.
Proof.
  unfold response_events.
  destruct (getCallContext callId (handler self))
    as [[[[d oname] oargs] ocmd]|].
  - rewrite fired_app. unfold command_log. by destruct command.
  - unfold unmatched_log. by case_decide.
Qed.

Lemma wire_ids_response name callId result command self :
  wire_ids (response_events name callId result command self) = [].
Proof.
  unfold response_events.
  destruct (getCallContext callId (handler self))
    as [[[[d oname] oargs] ocmd]|].
  - rewrite wire_ids_app. unfold command_log, dispatch.
    destruct command; simpl; repeat case_decide; try done;
      destruct (is_None result); try done; by destruct (called d self).
  - unfold unmatched_log. by case_decide.
Qed.

Lemma handleRemoteResponse_events name callId result command self :
  (handleRemoteResponse name callId result command self).2 =
    {| handler :=
         {| _lastCallId := _lastCallId (handler self);
            _activeCalls := delete callId (_activeCalls (handler self)) |};
       wire := wire self; deferreds := deferreds self;
       events :=
         events self ++ response_events name callId result command self |}.
Proof. by rewrite handleRemoteResponse_spec. Qed.

(** *** Every continuation is fired at most once *)






(** *** The ids on the wire *)

Lemma sorted_snoc (l : list Z) x :
  StronglySorted Z.lt l → Forall (λ i, i < x) l →
  StronglySorted Z.lt (l ++ [x]).
Proof.
  induction 1 as [|y l Hs IH Hy]; intros Hall; simpl.
  - repeat constructor.
  - apply Forall_cons in Hall as [Hyx Hall]. constructor; [by apply IH|].
    apply Forall_app. split; [done|]. by constructor.
Qed.

(** The ids sent so far lie within [0 .. _lastCallId], and those that
    expect a response are strictly increasing. *)
Lemma wire_ids_serve (r : request value) self :
  0 ≤ _lastCallId (handler self) →
  Forall (λ i, 0 ≤ i ≤ _lastCallId (handler self)) (wire_ids (events self)) →
  StronglySorted Z.lt (filter (λ i, i ≠ NO_RESULT) (wire_ids (events self))) →
  0 ≤ _lastCallId (handler (serve r self))
  ∧ Forall (λ i, 0 ≤ i ≤ _lastCallId (handler (serve r self)))
      (wire_ids (events (serve r self)))
  ∧ StronglySorted Z.lt
      (filter (λ i, i ≠ NO_RESULT) (wire_ids (events (serve r self)))).
Proof.
  intros H0 Hall Hs. destruct r as [o|name args command|name args command|
                                    name callId result command]; simpl.
  - unfold inherited. pose proof (apply_op_lastCallId o (handler self)) as Hl.
    destruct (apply_op o (handler self)) as [r h]. simpl in *.
    assert (_lastCallId (handler self) ≤ _lastCallId h)
      by (rewrite Hl; destruct o; lia).
    split; [lia|]. split; [|done].
    eapply Forall_impl; [exact Hall|]. simpl. intros; lia.
  - rewrite callRemote_spec. simpl. rewrite wire_ids_app, filter_app. simpl.
    split; [done|]. split.
    + apply Forall_app. split; [done|]. repeat constructor; done.
    + rewrite filter_cons_False by (unfold NO_RESULT; simpl; tauto).
      by rewrite filter_nil, app_nil_r.
  - rewrite callRemoteWithResult_spec. simpl.
    assert (Hsnoc :
      Forall (λ i, 0 ≤ i ≤ getNextCallId (handler self))
        (wire_ids (events self) ++ [getNextCallId (handler self)])
      ∧ StronglySorted Z.lt
          (filter (λ i, i ≠ NO_RESULT)
             (wire_ids (events self) ++ [getNextCallId (handler self)]))).
    { unfold getNextCallId. split.
      - apply Forall_app. split.
        + eapply Forall_impl; [exact Hall|]. simpl. intros; lia.
        + repeat constructor; lia.
      - rewrite filter_app.
        rewrite filter_cons_True by (unfold NO_RESULT; simpl; lia).
        rewrite filter_nil. apply sorted_snoc; [done|].
        apply Forall_forall. intros i Hi.
        apply list_elem_of_filter in Hi as [_ Hi].
        rewrite Forall_forall in Hall. specialize (Hall i Hi).
        simpl in Hall. lia. }
    destruct Hsnoc as [Hall' Hs'].
    destruct (sendMessage _ _).2; simpl; rewrite wire_ids_app; simpl;
      (split; [unfold getNextCallId; lia|]); split; done.
  - rewrite handleRemoteResponse_events. simpl.
    rewrite wire_ids_app, wire_ids_response, app_nil_r. done.
Qed.

(** X10: Call ids on the wire never collide: over any session of a new
    initiator, every message handed to [sendMessage] carries an id within
    [0 .. _lastCallId], and the ids other than [NO_RESULT] are strictly
    increasing in the order sent. *)
Theorem wire_ids_increasing (rs : list (request value)) (t : transport) :
  Forall (λ i, 0 ≤ i ≤ _lastCallId (handler (serve_all rs (new_initiator t))))
    (wire_ids (events (serve_all rs (new_initiator t))))
  ∧ StronglySorted Z.lt
      (filter (λ i, i ≠ NO_RESULT)
         (wire_ids (events (serve_all rs (new_initiator t))))).
Proof.
  assert (Hgen : ∀ self,
    0 ≤ _lastCallId (handler self) →
    Forall (λ i, 0 ≤ i ≤ _lastCallId (handler self))
      (wire_ids (events self)) →
    StronglySorted Z.lt
      (filter (λ i, i ≠ NO_RESULT) (wire_ids (events self))) →
    Forall (λ i, 0 ≤ i ≤ _lastCallId (handler (serve_all rs self)))
      (wire_ids (events (serve_all rs self)))
    ∧ StronglySorted Z.lt
        (filter (λ i, i ≠ NO_RESULT) (wire_ids (events (serve_all rs self))))).
  { induction rs as [|r rs IH]; intros self H0 Hall Hs; [done|].
    simpl. destruct (wire_ids_serve r self H0 Hall Hs) as (? & ? & ?).
    by apply IH. }
  apply Hgen; simpl; [done|constructor|constructor].
Qed.

(** *** A call and its response *)

Lemma called_after_send d self (t : transport) (m : Invoke value)
    (h : BaseCallHandler (CallContext value)) n :
  called d
    {| handler := h; wire := t; deferreds := n;
       events := events self ++ [sent m] |}
  = called d self.
Proof.
  apply called_ext. simpl. by rewrite fired_app, app_nil_r.
Qed.

(** X11: A response finds its caller: on an initiator whose active ids
    lie within [1 .. _lastCallId], after [callRemoteWithResult] sent its
    message and returned a new Deferred, a ["_result"] response carrying
    the id of that message, with or without a command, calls
    [callback(result)] on that very Deferred and returns; an ["_error"]
    response calls [errback(RemoteCallFailed(result))] on it when the
    result is not [None], and raises [NoCurrentExceptionError] without
    firing anything when it is.  Either way the mapping of active calls
    is what it was before the call. *)
Theorem call_and_response name args command result command' self t :
  ids_in_range (handler self) →
  called (deferreds self) self = false →
  sendMessage
    (mkInvoke name (getNextCallId (handler self)) command args) (wire self)
    = (t, None) →
  (callRemoteWithResult name args command self).1 = Return (deferreds self)
  ∧ handleRemoteResponse RESPONSE_RESULT
      (getNextCallId (handler self)) result command'
      (callRemoteWithResult name args command self).2 =
      (Return (),
       {| handler :=
            {| _lastCallId := _lastCallId (handler self) + 1;
               _activeCalls := _activeCalls (handler self) |};
          wire := t; deferreds := S (deferreds self);
          events :=
            events self ++
            [sent (mkInvoke name (getNextCallId (handler self)) command args)]
            ++ command_log command' result name args
            ++ [callback (deferreds self) result] |})
  ∧ handleRemoteResponse RESPONSE_ERROR
      (getNextCallId (handler self)) result command'
      (callRemoteWithResult name args command self).2 =
      (if is_None result then Raise NoCurrentExceptionError else Return (),
       {| handler :=
            {| _lastCallId := _lastCallId (handler self) + 1;
               _activeCalls := _activeCalls (handler self) |};
          wire := t; deferreds := S (deferreds self);
          events :=
            events self ++
            [sent (mkInvoke name (getNextCallId (handler self)) command args)]
            ++ command_log command' result name args
            ++ if is_None result then []
               else [errback (deferreds self) (RemoteCallFailed result)] |}).
Proof.
  intros Hin Hfresh Hsend. pose proof (ids_in_range_next_free _ Hin) as Hfree.
  rewrite callRemoteWithResult_spec. simpl. rewrite Hsend. simpl.
  split; [done|].
  rewrite !handleRemoteResponse_spec.
  unfold response_events, getCallContext. simpl.
  rewrite lookup_insert_eq, delete_insert_eq, delete_id by done.
  unfold dispatch_outcome, dispatch, context_deferred. simpl.
  rewrite !called_after_send, Hfresh.
  rewrite <- !app_assoc. simpl.
  split; [done|]. by destruct (is_None result).
Qed.

Lemma inactive_serve_all (rs : list (request value)) self c :
  c ≤ _lastCallId (handler self) →
  _activeCalls (handler self) !! c = None →
  _activeCalls (handler (serve_all rs self)) !! c = None.
Proof.
  revert self. induction rs as [|r rs IH]; intros self Hle Hna; [done|].
  rewrite serve_all_cons. apply IH;
    destruct r as [o|name args command|name args command|
                   name callId result command]; unfold serve.
  - unfold inherited.
    pose proof (apply_op_lastCallId o (handler self)) as Hl.
    destruct (apply_op o (handler self)) as [x h]. simpl in *.
    rewrite Hl. destruct o; lia.
  - by rewrite callRemote_spec.
  - rewrite callRemoteWithResult_spec. simpl.
    destruct (sendMessage _ _).2; simpl; unfold getNextCallId; lia.
  - by rewrite handleRemoteResponse_events.
  - unfold inherited.
    pose proof (apply_op_calls o (handler self) c) as Hlk.
    destruct (apply_op o (handler self)) as [x h]. simpl in *.
    rewrite Hlk.
    destruct o; try done; case_decide; unfold getNextCallId in *;
      try done; lia.
  - by rewrite callRemote_spec.
  - rewrite callRemoteWithResult_spec. simpl.
    destruct (sendMessage _ _).2; simpl.
    + rewrite lookup_delete. by case_decide.
    + rewrite lookup_insert_ne by (unfold getNextCallId; lia). done.
  - rewrite handleRemoteResponse_events. simpl.
    rewrite lookup_delete. by case_decide.
Qed.

(** X12: A failed send costs an id and nothing else: on an initiator
    whose active ids lie within [1 .. _lastCallId], when [sendMessage]
    raises in [callRemoteWithResult] the mapping of active calls is
    exactly what it was and [_lastCallId] has advanced by one; and a
    response that carries the lost id, at once or after any further
    requests, with any name, result and command, finds no call: it only
    logs, returns and fires no Deferred. *)
Theorem failed_send_costs_an_id
    name args command self t e (rs : list (request value))
    name' result command' :
  ids_in_range (handler self) →
  sendMessage
    (mkInvoke name (getNextCallId (handler self)) command args) (wire self)
    = (t, Some e) →
  handler (callRemoteWithResult name args command self).2 =
    {| _lastCallId := _lastCallId (handler self) + 1;
       _activeCalls := _activeCalls (handler self) |}
  ∧ getNextCallId (handler (callRemoteWithResult name args command self).2)
    = getNextCallId (handler self) + 1
  ∧ ids_in_range (handler (callRemoteWithResult name args command self).2)
  ∧ handleRemoteResponse name' (getNextCallId (handler self)) result
      command'
      (serve_all rs (callRemoteWithResult name args command self).2) =
      (Return (),
       {| handler :=
            handler
              (serve_all rs (callRemoteWithResult name args command self).2);
          wire :=
            wire
              (serve_all rs (callRemoteWithResult name args command self).2);
          deferreds :=
            deferreds
              (serve_all rs (callRemoteWithResult name args command self).2);
          events :=
            events
              (serve_all rs (callRemoteWithResult name args command self).2)
            ++ unmatched_log name' (getNextCallId (handler self)) result |})
  ∧ fired
      (events
         (handleRemoteResponse name' (getNextCallId (handler self)) result
            command'
            (serve_all rs
               (callRemoteWithResult name args command self).2)).2)
    = fired
        (events
           (serve_all rs (callRemoteWithResult name args command self).2)).
Proof.
  intros Hin Hsend. pose proof (ids_in_range_next_free _ Hin) as Hfree.
  assert (Hh : handler (callRemoteWithResult name args command self).2 =
                 {| _lastCallId := _lastCallId (handler self) + 1;
                    _activeCalls := _activeCalls (handler self) |}).
  { rewrite callRemoteWithResult_spec. simpl. rewrite Hsend. simpl.
    by rewrite delete_id. }
  assert (Hlost :
    _activeCalls
      (handler
         (serve_all rs (callRemoteWithResult name args command self).2))
      !! getNextCallId (handler self) = None).
  { apply inactive_serve_all; rewrite Hh; simpl;
      [unfold getNextCallId; lia | done]. }
  split; [exact Hh|]. rewrite Hh.
  split; [done|]. split.
  - destruct Hin as [H0 Hk]. split; simpl; [lia|].
    intros k Hs. specialize (Hk k Hs). lia.
  - rewrite (handleRemoteResponse_inactive _ _ _ _ _ Hlost).
    split; [done|]. simpl. rewrite fired_app.
    unfold unmatched_log. case_decide; simpl; by rewrite app_nil_r.
Qed.

(** X13: [handleRemoteResponse] only consumes: for every state and response it
    sends nothing, allocates no Deferred, leaves [_lastCallId] and the
    transport alone, removes no call but [callId] and fires at most one
    Deferred. *)
Theorem handleRemoteResponse_only_consumes name callId result command self :
  wire (handleRemoteResponse (exn := exn) name callId result command self).2
    = wire self
  ∧ deferreds
      (handleRemoteResponse (exn := exn) name callId result command self).2
    = deferreds self
  ∧ handler
      (handleRemoteResponse (exn := exn) name callId result command self).2
    = {| _lastCallId := _lastCallId (handler self);
         _activeCalls := delete callId (_activeCalls (handler self)) |}
  ∧ wire_ids
      (events
         (handleRemoteResponse (exn := exn) name callId result command
            self).2)
    = wire_ids (events self)
  ∧ ∃ new,
      fired
        (events
           (handleRemoteResponse (exn := exn) name callId result command
              self).2)
      = fired (events self) ++ new
      ∧ (length new ≤ 1)%nat.
Proof.
  rewrite handleRemoteResponse_events. simpl.
  rewrite wire_ids_app, wire_ids_response, app_nil_r, fired_app,
    fired_response.
  repeat split. eexists. split; [reflexivity|].
  destruct (getCallContext callId (handler self)) as [ctx|]; [|simpl; lia].
  destruct (fired_dispatch name result ctx self) as [->| ->]; simpl; lia.
Qed.

(** X14: A waiting call is removed only by its own id: on an initiator where
    the call [c] is active and [c] is at most [_lastCallId], a session
    with no response, [finishCall] or [discardCall] for [c] leaves the
    call active with its context, whatever else is called, sent or
    answered in between. *)
Theorem pending_call_survives (rs : list (request value)) self c ctx :
  getCallContext c (handler self) = Some ctx →
  c ≤ _lastCallId (handler self) →
  forallb (λ r, negb (targets c r)) rs = true →
  getCallContext c (handler (serve_all rs self)) = Some ctx
  ∧ c ≤ _lastCallId (handler (serve_all rs self)).
Proof.
  revert self. induction rs as [|r rs IH]; intros self Hctx Hle Hrs;
    [done|].
  simpl in Hrs. apply andb_prop in Hrs as [Hr Hrs].
  rewrite serve_all_cons. apply IH; [| |done];
    destruct r as [o|name args command|name args command|
                   name callId result command]; unfold serve.
  - unfold inherited, getCallContext in *.
    pose proof (apply_op_calls o (handler self) c) as Hlk.
    destruct (apply_op o (handler self)) as [x h]. simpl in *.
    rewrite Hlk.
    destruct o; simpl in Hr; try done;
      try (apply negb_true_iff, bool_decide_eq_false in Hr);
      case_decide; unfold getNextCallId in *; try done; lia.
  - by rewrite callRemote_spec.
  - rewrite callRemoteWithResult_spec. unfold getCallContext in *. simpl.
    destruct (sendMessage _ _).2; simpl;
      rewrite ?lookup_insert_ne, ?lookup_delete_ne
        by (unfold getNextCallId; lia); done.
  - rewrite handleRemoteResponse_events. unfold getCallContext in *. simpl.
    simpl in Hr. apply negb_true_iff, bool_decide_eq_false in Hr.
    by rewrite lookup_delete_ne.
  - unfold inherited.
    pose proof (apply_op_lastCallId o (handler self)) as Hl.
    destruct (apply_op o (handler self)) as [x h]. simpl in *.
    rewrite Hl. destruct o; lia.
  - by rewrite callRemote_spec.
  - rewrite callRemoteWithResult_spec. simpl.
    destruct (sendMessage _ _).2; simpl; unfold getNextCallId; lia.
  - by rewrite handleRemoteResponse_events.
Qed.

End AbstractCallInitiator.

(** *** The abstract initiator *)

(** X15: An initiator that does not override [sendMessage] never has an
    active call and never fires a continuation: over any session in which
    calls are registered by [callRemoteWithResult] only, [_activeCalls]
    stays empty. *)
Theorem abstract_initiator_stays_empty {value : Type} {none : PyNone value}
    (rs : list (request value)) :
  forallb by_protocol rs = true →
  _activeCalls
    (handler (serve_all (sender := AbstractSender) rs (new_initiator ())))
    = ∅
  ∧ fired
      (events (serve_all (sender := AbstractSender) rs (new_initiator ())))
    = [].
Proof.
  assert (Hgen : ∀ self : Initiator value unit,
    forallb by_protocol rs = true →
    _activeCalls (handler self) = ∅ → fired (events self) = [] →
    _activeCalls (handler (serve_all (sender := AbstractSender) rs self)) = ∅
    ∧ fired (events (serve_all (sender := AbstractSender) rs self)) = []).
  { induction rs as [|r rs IH]; intros self Hp He Hf; [done|].
    simpl in Hp. apply andb_prop in Hp as [Hr Hrs].
    rewrite serve_all_cons.
    apply IH; [done|..];
      destruct r as [o|name args command|name args command|
                     name callId result command]; unfold serve.
    - unfold inherited. destruct o; try done; simpl;
        rewrite ?finishCall_spec, ?discardCall_spec; simpl;
        rewrite He; apply delete_empty.
    - by rewrite callRemote_spec.
    - rewrite callRemoteWithResult_spec. simpl. rewrite He.
      apply delete_empty.
    - rewrite handleRemoteResponse_events. simpl. rewrite He.
      apply delete_empty.
    - unfold inherited. by destruct (apply_op o (handler self)).
    - rewrite callRemote_spec. simpl. by rewrite fired_app, Hf.
    - rewrite callRemoteWithResult_spec. simpl. by rewrite fired_app, Hf.
    - rewrite handleRemoteResponse_events. simpl.
      rewrite fired_app, fired_response, Hf. unfold getCallContext.
      by rewrite He, lookup_empty. }
  intros Hp. by apply Hgen.
Qed.

(** *** The theorems at work on concrete sessions *)

Lemma busy_handler_in_range : ids_in_range busy_handler.
Proof. apply ids_in_range_run, ids_in_range_init. Qed.

Lemma initiateCall_finishCall_roundtrip_witness :
  ids_in_range busy_handler
  ∧ (initiateCall "c" busy_handler).1 = 3
  ∧ finishCall 3 (initiateCall "c" busy_handler).2 =
      (Some "c",
       {| _lastCallId := 3; _activeCalls := _activeCalls busy_handler |}).
Proof.
  split; [exact busy_handler_in_range|]. split; [reflexivity|].
  destruct (initiateCall_finishCall_roundtrip "c" busy_handler
              busy_handler_in_range) as (_ & _ & Hfin).
  exact Hfin.
Defined.

Lemma initiateCall_keeps_active_witness :
  ids_in_range busy_handler
  ∧ getCallContext 2 busy_handler = Some "b"
  ∧ getCallContext 2 (initiateCall "c" busy_handler).2 = Some "b".
Proof.
  split; [exact busy_handler_in_range|]. split; [reflexivity|].
  destruct (initiateCall_keeps_active "c" busy_handler 2 "b"
              busy_handler_in_range eq_refl) as [_ Hkept].
  exact Hkept.
Defined.

Lemma finishCall_independent_witness :
  (1 : Z) ≠ 2
  ∧ (finishCall 2
       (finishCall 1
          (run [InitiateCall "a"; InitiateCall "b"] __init__).2).2).1
    = Some "b".
Proof.
  split; [lia|].
  destruct (finishCall_independent 1 2
              (run [InitiateCall "a"; InitiateCall "b"] __init__).2
              ltac:(lia)) as [Hctx _].
  exact Hctx.
Defined.

Lemma inactive_id_stays_inactive_witness :
  1 ≤ _lastCallId busy_handler
  ∧ isCallActive 1 busy_handler = false
  ∧ isCallActive 1
      (run [InitiateCall "c"; DiscardCall 2; InitiateCall "d"]
         busy_handler).2 = false.
Proof.
  split; [vm_compute; discriminate|]. split; [reflexivity|].
  apply (inactive_id_stays_inactive
           [InitiateCall "c"; DiscardCall 2; InitiateCall "d"]
           busy_handler 1).
  - vm_compute. discriminate.
  - reflexivity.
Defined.

Lemma active_calls_accounted_witness :
  ids_in_range busy_handler
  ∧ (size
       (_activeCalls
          (run [InitiateCall "c"; DiscardCall 2; FinishCall 2] busy_handler).2)
     + removed [InitiateCall "c"; DiscardCall 2; FinishCall 2] busy_handler
     = 1 + 1)%nat.
Proof.
  split; [exact busy_handler_in_range|].
  exact (active_calls_accounted
           [InitiateCall "c"; DiscardCall 2; FinishCall 2] busy_handler
           busy_handler_in_range).
Defined.


Lemma call_and_response_witness :
  ids_in_range (handler recording_initiator)
  ∧ called (deferreds recording_initiator) recording_initiator = false
  ∧ sendMessage (IMessageSender := RecordingSender (exn := PyException))
      (mkInvoke "connect" (getNextCallId (handler recording_initiator))
         None [7])
      (wire recording_initiator)
    = ([mkInvoke "connect" 1 None [7]], None)
  ∧ handleRemoteResponse (exn := PyException) RESPONSE_RESULT 1 42 (Some 3)
      (callRemoteWithResult
         (sender := RecordingSender (exn := PyException))
         "connect" [7] None recording_initiator).2 =
      (Return (),
       {| handler := {| _lastCallId := 1; _activeCalls := ∅ |};
          wire := [mkInvoke "connect" 1 None [7]]; deferreds := 1;
          events :=
            [sent (mkInvoke "connect" 1 None [7]);
             log_msg "Received command of %r with result %r"
               [LObj 3; LObj 42];
             log_msg "In response to %r%r" [LStr "connect"; LTuple [7]];
             callback 0%nat 42] |}).
Proof.
  split; [apply ids_in_range_init|]. split; [reflexivity|].
  split; [reflexivity|].
  destruct (call_and_response
              (sender := RecordingSender (exn := PyException))
              "connect" [7] None 42 (Some 3) recording_initiator
              [mkInvoke "connect" 1 None [7]]
              ids_in_range_init eq_refl eq_refl) as (_ & Hres & _).
  exact Hres.
Defined.

Lemma failed_send_costs_an_id_witness :
  ids_in_range (handler abstract_initiator)
  ∧ sendMessage (IMessageSender := AbstractSender)
      (mkInvoke "connect" (getNextCallId (handler abstract_initiator))
         None [7])
      (wire abstract_initiator)
    = ((), Some NotImplementedError)
  ∧ handler
      (callRemoteWithResult (sender := AbstractSender)
         "connect" [7] None abstract_initiator).2
    = {| _lastCallId := 1; _activeCalls := ∅ |}
  ∧ fired
      (events
         (handleRemoteResponse (exn := PyException) "_result" 1 42 (Some 3)
            (serve_all (sender := AbstractSender)
               [CallRemote "play" [] None;
                CallRemoteWithResult "pause" [] None]
               (callRemoteWithResult (sender := AbstractSender)
                  "connect" [7] None abstract_initiator).2)).2)
    = [].
Proof.
  split; [apply ids_in_range_init|]. split; [reflexivity|].
  destruct (failed_send_costs_an_id (sender := AbstractSender)
              "connect" [7] None abstract_initiator () NotImplementedError
              [CallRemote "play" [] None;
               CallRemoteWithResult "pause" [] None]
              "_result" 42 (Some 3)
              ids_in_range_init eq_refl) as (Hh & _ & _ & _ & Hfired).
  split; [exact Hh | exact Hfired].
Defined.

Lemma abstract_initiator_stays_empty_witness :
  forallb by_protocol
    [CallRemoteWithResult "connect" [7] None;
     HandleRemoteResponse "_result" 1 42 None;
     CallRemote "play" [] None] = true
  ∧ _activeCalls
      (handler
         (serve_all (sender := AbstractSender)
            [CallRemoteWithResult "connect" [7] None;
             HandleRemoteResponse "_result" 1 42 None;
             CallRemote "play" [] None]
            (new_initiator ()))) = ∅.
Proof.
  split; [reflexivity|].
  destruct (abstract_initiator_stays_empty
              [CallRemoteWithResult "connect" [7] None;
               HandleRemoteResponse "_result" 1 42 None;
               CallRemote "play" [] None] eq_refl) as [He _].
  exact He.
Defined.

Lemma pending_call_survives_witness :
  getCallContext 1
    (handler
       (callRemoteWithResult
          (sender := RecordingSender (exn := PyException))
          "connect" [7] None recording_initiator).2)
    = Some (0%nat, "connect", [7], None)
  ∧ getCallContext 1
      (handler
         (serve_all (sender := RecordingSender (exn := PyException))
            [CallRemoteWithResult "play" [] None;
             HandleRemoteResponse "_result" 2 42 None;
             CallRemote "pause" [] None;
             HandleRemoteResponse "_result" 0 42 None]
            (callRemoteWithResult
               (sender := RecordingSender (exn := PyException))
               "connect" [7] None recording_initiator).2))
    = Some (0%nat, "connect", [7], None).
Proof.
  split; [reflexivity|].
  destruct (pending_call_survives
              (sender := RecordingSender (exn := PyException))
              [CallRemoteWithResult "play" [] None;
               HandleRemoteResponse "_result" 2 42 None;
               CallRemote "pause" [] None;
               HandleRemoteResponse "_result" 0 42 None]
              (callRemoteWithResult
                 (sender := RecordingSender (exn := PyException))
                 "connect" [7] None recording_initiator).2
              1 (0%nat, "connect", [7], None)
              eq_refl ltac:(vm_compute; discriminate) eq_refl)
    as [Hctx _].
  exact Hctx.
Defined.

End RpcSessionFacts.

(** ** The stream factory of the decoder tests *)

Module CodecHarnessFacts.
Import Eff Eff.Notations Codec.

Section Harness.
Context {bytes datatype : Type}.
Implicit Types (t : Harness bytes datatype).

(** X16: [getStream] is idempotent per stream id: with no [expected_streams]
    set, it returns the stream kept under the id, creating it with
    timestamp 0 if there is none; a second call returns the same stream
    and changes nothing, and the streams of other ids are never touched. *)
Theorem getStream_idempotent t (streamId : Z) :
  expected_streams t = None →
  (getStream streamId t).1 = Return streamId
  ∧ getStream streamId (getStream streamId t).2 =
      (Return streamId, (getStream streamId t).2)
  ∧ streams (getStream streamId t).2 !! streamId =
      Some (default MockStream_new (streams t !! streamId))
  ∧ streams (getStream streamId t).2 =
      <[streamId := default MockStream_new (streams t !! streamId)]>
        (streams t)
  ∧ messages (getStream streamId t).2 = messages t
  ∧ events (getStream streamId t).2 = events t.
Proof.
  intros Hexp.
  unfold getStream, bind, get, put, ret, set_streams, set_expected_streams.
  unfold stream_ref. simpl. rewrite Hexp. simpl.
  destruct (streams t !! streamId) as [s|] eqn:Hs; simpl;
    rewrite ?Hexp, ?Hs, ?lookup_insert_eq; simpl;
    rewrite ?Hexp, ?Hs, ?lookup_insert_eq; simpl.
  - repeat split; try done. by rewrite insert_id.
  - repeat split; try done.
Qed.

End Harness.

Lemma getStream_idempotent_witness :
  expected_streams test_incrementing_timestamp = None
  ∧ getStream 2 (getStream 2 test_incrementing_timestamp).2 =
      (Return 2, (getStream 2 test_incrementing_timestamp).2)
  ∧ streams (getStream 2 test_incrementing_timestamp).2 !! 2 =
      Some MockStream_new.
Proof.
  split; [reflexivity|].
  destruct (getStream_idempotent test_incrementing_timestamp 2 eq_refl)
    as (_ & Hagain & Hnew & _).
  split; [exact Hagain | exact Hnew].
Defined.

End CodecHarnessFacts.
